(** * The Hy reader: hy/lex/parser.py

  A shallow embedding of the semantic actions of the reader (the functions
  decorated with [@pg.production] in hy/lex/parser.py), of the grammar
  those productions declare, and of the identifier mangler, followed by
  the properties of the reader established on that embedding. *)

From Stdlib Require Import String Ascii List ZArith Bool Lia.
Import ListNotations.

#[local] Set Warnings "-register-all".

Local Open Scope string_scope.
Local Open Scope Z_scope.

(** ** Python string and list primitives used by the reader *)

Module Py.

(** Index normalisation of a slice bound, as Python does it for a
    sequence of length [len]: a negative bound counts from the end, and
    both bounds are clipped to [0 .. len]. *)
Definition clip (len i : Z) : Z :=
  if i <? 0 then Z.max 0 (len + i) else Z.min i len.

Definition lower_bound (len : Z) (lo : option Z) : Z :=
  match lo with None => 0 | Some i => clip len i end.

Definition upper_bound (len : Z) (hi : option Z) : Z :=
  match hi with None => len | Some j => clip len j end.

(** [s[lo:hi]] on a string; [None] is an omitted bound. *)
Definition slice (s : string) (lo hi : option Z) : string :=
  let len := Z.of_nat (String.length s) in
  let a := lower_bound len lo in
  let b := upper_bound len hi in
  substring (Z.to_nat a) (Z.to_nat (b - a)) s.

(** [l[lo:hi]] on a list. *)
Definition lslice {A} (l : list A) (lo hi : option Z) : list A :=
  let len := Z.of_nat (List.length l) in
  let a := lower_bound len lo in
  let b := upper_bound len hi in
  firstn (Z.to_nat (b - a)) (skipn (Z.to_nat a) l).

(** [l[i]]; [None] stands for IndexError. *)
Definition item {A} (l : list A) (i : Z) : option A :=
  let len := Z.of_nat (List.length l) in
  let k := if i <? 0 then len + i else i in
  if (k <? 0) || (len <=? k) then None else nth_error l (Z.to_nat k).

(** [s.startswith(pre)] *)
Definition startswith (s pre : string) : bool := String.prefix pre s.

(** [s.endswith(suf)] *)
Definition endswith (s suf : string) : bool :=
  let n := String.length s in
  let k := String.length suf in
  (k <=? n)%nat && (substring (n - k) k s =? suf)%string.

(** [sub in s] *)
Fixpoint contains (sub s : string) : bool :=
  String.prefix sub s
  || match s with
     | EmptyString => false
     | String _ r => contains sub r
     end.

(** [s.replace(old, new)] for a one-character [old]. *)
Fixpoint replace (old : ascii) (new s : string) : string :=
  match s with
  | EmptyString => EmptyString
  | String c r =>
      if Ascii.eqb c old then new ++ replace old new r
      else String c (replace old new r)
  end.

(** [s.replace(old, new, 1)] for a one-character [old]: the first
    occurrence only. *)
Fixpoint replace_first (old : ascii) (new s : string) : string :=
  match s with
  | EmptyString => EmptyString
  | String c r =>
      if Ascii.eqb c old then new ++ r
      else String c (replace_first old new r)
  end.

(** [s.split(sep)] for a one-character [sep]: never empty, one more
    element than there are separators. *)
Fixpoint split (sep : ascii) (s : string) : list string :=
  match s with
  | EmptyString => [EmptyString]
  | String c r =>
      if Ascii.eqb c sep then EmptyString :: split sep r
      else match split sep r with
           | h :: t => String c h :: t
           | [] => [String c EmptyString]
           end
  end.

(** [s.split(sep, 1)]: at most one cut, at the first separator. *)
Fixpoint split1 (sep : ascii) (s : string) : list string :=
  match s with
  | EmptyString => [EmptyString]
  | String c r =>
      if Ascii.eqb c sep then [EmptyString; r]
      else match split1 sep r with
           | h :: t => String c h :: t
           | [] => [String c EmptyString]
           end
  end.

(** [sep.join(l)] *)
Definition join (sep : string) (l : list string) : string :=
  String.concat sep l.

End Py.

(** ** Tokens, as rply hands them to the productions *)

Inductive terminal : Type :=
| IDENTIFIER | LPAREN | RPAREN | LBRACKET | RBRACKET | LCURLY | RCURLY
| HLCURLY | STRING | PARTIAL_STRING | BRACKETSTRING | QUOTE | QUASIQUOTE
| UNQUOTE | UNQUOTESPLICE | DISCARD | HASHSTARS | HASHOTHER
| END.

Record SourcePosition : Type := {
  idx : Z;
  lineno : Z;
  colno : Z
}.

(** The token type as text; [END] is rply's end-of-stream token. *)
Definition terminal_name (k : terminal) : string :=
  match k with
  | IDENTIFIER => "IDENTIFIER" | LPAREN => "LPAREN" | RPAREN => "RPAREN"
  | LBRACKET => "LBRACKET" | RBRACKET => "RBRACKET" | LCURLY => "LCURLY"
  | RCURLY => "RCURLY" | HLCURLY => "HLCURLY" | STRING => "STRING"
  | PARTIAL_STRING => "PARTIAL_STRING" | BRACKETSTRING => "BRACKETSTRING"
  | QUOTE => "QUOTE" | QUASIQUOTE => "QUASIQUOTE" | UNQUOTE => "UNQUOTE"
  | UNQUOTESPLICE => "UNQUOTESPLICE" | DISCARD => "DISCARD"
  | HASHSTARS => "HASHSTARS" | HASHOTHER => "HASHOTHER" | END => "$end"
  end.

(** [name] is [gettokentype()], [value] is [getstr()]. *)
Record Token : Type := {
  name : terminal;
  value : string;
  source_pos : SourcePosition
}.

(** ** Exceptions *)

(** Modelled from the spec: the two exceptions of hy.lex.exceptions,
    which is not part of hy/lex/parser.py: malformed input, with a
    message, a line and a column, and incomplete input.  [PythonError] is
    any other exception of Python (AttributeError, IndexError, ...). *)
Inductive exception : Type :=
| LexException (message : string) (line column : Z)
| PrematureEndOfInput (message : string)
| PythonError (kind : string).

Inductive result (A : Type) : Type :=
| Ok (a : A)
| Raise (e : exception).

Arguments Ok {A} a.
Arguments Raise {A} e.

Definition bind {A B} (r : result A) (k : A -> result B) : result B :=
  match r with
  | Ok a => k a
  | Raise e => Raise e
  end.

Notation "x <- r ;; k" := (bind r (fun x => k))
  (at level 61, r at next level, right associativity).
Notation "r ;;; k" := (bind r (fun _ => k))
  (at level 61, right associativity).

Definition len {A} (l : list A) : Z := Z.of_nat (List.length l).
Definition strlen (s : string) : Z := Z.of_nat (String.length s).

(** ** What the reader takes from the rest of the interpreter

    hy.models, hy._compat and the Python built-ins are not part of
    hy/lex/parser.py.  The reader only calls the constructors of the
    numeric models on a text (they raise ValueError on a text that is not
    such a literal, here [None]), [str.upper], the evaluation of a string
    literal and the BRACKETSTRING regular expression of the lexer.  They
    are parameters of the embedding. *)

Class Host : Type := {
  pyfloat : Type;
  pycomplex : Type;
  (** [HyInteger(text)]: the integer, or ValueError *)
  integer_of : string -> option Z;
  (** [HyFloat(text)] *)
  float_of : string -> option pyfloat;
  (** [HyComplex(text)] *)
  complex_of : string -> option pycomplex;
  (** [text.upper()] *)
  upper : string -> string;
  (** [eval] of a re-delimited string literal: a text ([inl]) or a bytes
      ([inr]) value, or the exception Python raises *)
  eval_literal : string -> option (string + string);
  (** [bracket_string_re.match(text).groups()] *)
  bracket_string_groups : string -> option (string * string)
}.

Section Reader.

Context {host : Host}.

(** [hy_symbol_mangle], lines 25-38.  Each [let] is one of the four
    reassignments of [p]. *)
Definition hy_symbol_mangle (p : string) : string :=
  let p :=
    if Py.startswith p "*" && Py.endswith p "*"
       && negb ((p =? "*")%string || (p =? "**")%string)
    then upper (Py.slice p (Some 1) (Some (-1)))
    else p in
  let p :=
    if Py.contains "-" p && negb (p =? "-")%string
    then Py.replace "-" "_" p
    else p in
  let p :=
    if Py.endswith p "?" && negb (p =? "?")%string
    then "is_" ++ Py.slice p None (Some (-1))
    else p in
  let p :=
    if Py.endswith p "!" && negb (p =? "!")%string
    then Py.slice p None (Some (-1)) ++ "_bang"
    else p in
  p.

(** ** Models *)

(** The four span attributes, set on an object after its construction by
    [set_boundaries] and [set_quote_boundaries]. *)
Record boundaries : Type := {
  start_line : Z;
  start_column : Z;
  end_line : Z;
  end_column : Z
}.

(** Modelled from the spec: the node classes of hy.models, which is not
    part of hy/lex/parser.py, as the closed tagged variant of the data
    model: symbol, keyword, integer, float, complex, string (with its
    bracket delimiter) and bytes; expression, list, dict and set, each a
    sequence of children; cons, a pair of a head and a tail.  An object
    on which the span attributes were never set has [None]. *)
Inductive atom : Type :=
| ASymbol (s : string)
| AKeyword (s : string)
| AInteger (z : Z)
| AFloat (f : pyfloat)
| AComplex (c : pycomplex)
| AString (s : string) (brackets : option string)
| ABytes (s : string).

Inductive sequence : Type := KExpression | KList | KDict | KSet.

Inductive HyObject : Type :=
| HyAtom (a : atom) (span : option boundaries)
| HySeq (k : sequence) (items : list HyObject) (span : option boundaries)
| HyCons_ (car cdr : HyObject) (span : option boundaries).

(** The constructor calls of the source: a fresh object, no span yet. *)
Definition HySymbol (s : string) : HyObject := HyAtom (ASymbol s) None.
Definition HyKeyword (s : string) : HyObject := HyAtom (AKeyword s) None.
Definition HyInteger (z : Z) : HyObject := HyAtom (AInteger z) None.
Definition HyFloat (f : pyfloat) : HyObject := HyAtom (AFloat f) None.
Definition HyComplex (c : pycomplex) : HyObject := HyAtom (AComplex c) None.
Definition HyString (s : string) (brackets : option string) : HyObject :=
  HyAtom (AString s brackets) None.
Definition HyBytes (s : string) : HyObject := HyAtom (ABytes s) None.
Definition HyExpression (l : list HyObject) : HyObject := HySeq KExpression l None.
Definition HyList (l : list HyObject) : HyObject := HySeq KList l None.
Definition HyDict (l : list HyObject) : HyObject := HySeq KDict l None.
Definition HySet (l : list HyObject) : HyObject := HySeq KSet l None.
Definition HyCons (car cdr : HyObject) : HyObject := HyCons_ car cdr None.

Definition span_of (o : HyObject) : option boundaries :=
  match o with
  | HyAtom _ sp | HySeq _ _ sp | HyCons_ _ _ sp => sp
  end.

Definition with_span (o : HyObject) (sp : boundaries) : HyObject :=
  match o with
  | HyAtom a _ => HyAtom a (Some sp)
  | HySeq k l _ => HySeq k l (Some sp)
  | HyCons_ a d _ => HyCons_ a d (Some sp)
  end.

(** ** The span decorators, lines 63-91

    [set_boundaries]: [first] is [p[0]]; [last] is [p[-1]] when the
    production has more than one symbol, and [None] when [p[0]] is the
    only one, the case in which [start is end]. *)
Definition set_boundaries (first : Token) (last : option Token)
    (ret : result HyObject) : result HyObject :=
  let start := source_pos first in
  ret <- ret ;;
  Ok (with_span ret
        match last with
        | Some last =>
            {| start_line := lineno start;
               start_column := colno start;
               end_line := lineno (source_pos last);
               end_column := colno (source_pos last) |}
        | None =>
            {| start_line := lineno start;
               start_column := colno start;
               end_line := lineno start;
               end_column := colno start + strlen (value first) |}
        end).

(** [set_quote_boundaries]: [first] is the marker token [p[0]], [last]
    the wrapped term [p[-1]], whose end attributes are read. *)
Definition set_quote_boundaries (first : Token) (last : HyObject)
    (ret : result HyObject) : result HyObject :=
  let start := source_pos first in
  ret <- ret ;;
  match span_of last with
  | Some b =>
      Ok (with_span ret
            {| start_line := lineno start;
               start_column := colno start;
               end_line := end_line b;
               end_column := end_column b |})
  | None => Raise (PythonError "AttributeError")
  end.
(** ** Semantic actions

    Each action takes the elements of [p] it uses, in the order of the
    production: tokens for terminals, the value of the action of the
    sub-production for non-terminals. *)

(** [main : list_contents] *)
Definition main (p0 : list HyObject) : list HyObject := p0.

(** [main : $end] *)
Definition main_empty : list HyObject := [].

(** [tok == "." and type(tok) == HySymbol] *)
Definition is_dot (tok : HyObject) : bool :=
  match tok with
  | HyAtom (ASymbol s) _ => (s =? ".")%string
  | _ => false
  end.

(** The inner loop of [reject_spurious_dots]: [for tok in list]. *)
Fixpoint reject_dots_in (list : list HyObject) : result unit :=
  match list with
  | [] => Ok tt
  | tok :: rest =>
      if is_dot tok then
        match span_of tok with
        | Some b =>
            Raise (LexException "Malformed dotted list"
                     (start_line b) (start_column b))
        | None => Raise (PythonError "AttributeError")
        end
      else reject_dots_in rest
  end.

(** [reject_spurious_dots], lines 104-110, on the tuple [items] of its
    variadic arguments. *)
Fixpoint reject_spurious_dots (items : list (list HyObject)) : result unit :=
  match items with
  | [] => Ok tt
  | list :: rest => reject_dots_in list ;;; reject_spurious_dots rest
  end.

(** [paren : LPAREN list_contents RPAREN], lines 113-138.  The recursive
    call [paren([p[0], cont[1:], p[2]])] goes through the decorator again,
    as the name [paren] is bound to the decorated function. *)
Fixpoint paren (p0 : Token) (cont : list HyObject) (p2 : Token) {struct cont}
  : result HyObject :=
  set_boundaries p0 (Some p2)
    (if (3 <=? len cont)
        && match Py.item cont (-2) with
           | Some x => is_dot x
           | None => false
           end
     then
       reject_spurious_dots
         [Py.lslice cont None (Some (-2)); Py.lslice cont (Some (-1)) None] ;;;
       if len cont =? 3 then
         match cont with
         | [c0; _; c2] => Ok (HyCons c0 c2)
         | _ => Raise (PythonError "IndexError")
         end
       else
         match cont with
         | c0 :: cont_1 =>
             cdr <- paren p0 cont_1 p2 ;;
             Ok (HyCons c0 cdr)
         | [] => Raise (PythonError "IndexError")
         end
     else
       reject_spurious_dots [Py.lslice cont (Some 1) None] ;;;
       Ok (HyExpression cont)).

(** [paren : LPAREN RPAREN] *)
Definition empty_paren (p0 p1 : Token) : result HyObject :=
  set_boundaries p0 (Some p1) (Ok (HyExpression [])).

(** [list_contents : term list_contents] *)
Definition list_contents (p0 : HyObject) (p1 : list HyObject) : list HyObject :=
  [p0] ++ p1.

(** [list_contents : term] *)
Definition list_contents_single (p0 : HyObject) : list HyObject := [p0].

(** [list_contents : DISCARD term discarded_list_contents] *)
Definition list_contents_empty (p0 : Token) (p1 : HyObject) (p2 : unit)
  : list HyObject := [].

(** [discarded_list_contents : DISCARD term discarded_list_contents] and
    [discarded_list_contents :], whose action returns [None]. *)
Definition discarded_list_contents : unit := tt.

(** [term : identifier | paren | dict | list | set | string] *)
Definition term (p0 : HyObject) : HyObject := p0.

(** [term : DISCARD term term], lines 178-180: not decorated. *)
Definition term_discard (p0 : Token) (p1 p2 : HyObject) : HyObject := p2.

(** [term : QUOTE term] *)
Definition term_quote (p0 : Token) (p1 : HyObject) : result HyObject :=
  set_quote_boundaries p0 p1 (Ok (HyExpression [HySymbol "quote"; p1])).

(** [term : QUASIQUOTE term] *)
Definition term_quasiquote (p0 : Token) (p1 : HyObject) : result HyObject :=
  set_quote_boundaries p0 p1 (Ok (HyExpression [HySymbol "quasiquote"; p1])).

(** [term : UNQUOTE term] *)
Definition term_unquote (p0 : Token) (p1 : HyObject) : result HyObject :=
  set_quote_boundaries p0 p1 (Ok (HyExpression [HySymbol "unquote"; p1])).

(** [term : UNQUOTESPLICE term] *)
Definition term_unquote_splice (p0 : Token) (p1 : HyObject) : result HyObject :=
  set_quote_boundaries p0 p1
    (Ok (HyExpression [HySymbol "unquote_splice"; p1])).

Definition too_many_stars : string :=
  "Too many stars in `#*` construct (if you want to unpack a symbol "
  ++ "beginning with a star, separate it with whitespace)".

(** [term : HASHSTARS term], lines 207-220. *)
Definition term_hashstars (p0 : Token) (p1 : HyObject) : result HyObject :=
  set_quote_boundaries p0 p1
    (let n_stars := strlen (Py.slice (value p0) (Some 1) None) in
     sym <- (if n_stars =? 1 then Ok "unpack_iterable"
             else if n_stars =? 2 then Ok "unpack_mapping"
             else Raise (LexException too_many_stars
                           (lineno (source_pos p0)) (colno (source_pos p0)))) ;;
     Ok (HyExpression [HySymbol sym; p1])).

(** [term : HASHOTHER term] *)
Definition hash_other (p0 : Token) (p1 : HyObject) : result HyObject :=
  set_quote_boundaries p0 p1
    (let st := Py.slice (value p0) (Some 1) None in
     let str_object := HyString st None in
     let expr := p1 in
     Ok (HyExpression [HySymbol "dispatch_tag_macro"; str_object; expr])).

(** [set : HLCURLY list_contents RCURLY] *)
Definition t_set (p0 : Token) (p1 : list HyObject) (p2 : Token) : result HyObject :=
  set_boundaries p0 (Some p2) (Ok (HySet p1)).

(** [set : HLCURLY RCURLY] *)
Definition empty_set (p0 p1 : Token) : result HyObject :=
  set_boundaries p0 (Some p1) (Ok (HySet [])).

(** [dict : LCURLY list_contents RCURLY] *)
Definition t_dict (p0 : Token) (p1 : list HyObject) (p2 : Token) : result HyObject :=
  set_boundaries p0 (Some p2) (Ok (HyDict p1)).

(** [dict : LCURLY RCURLY] *)
Definition empty_dict (p0 p1 : Token) : result HyObject :=
  set_boundaries p0 (Some p1) (Ok (HyDict [])).

(** [list : LBRACKET list_contents RBRACKET] *)
Definition t_list (p0 : Token) (p1 : list HyObject) (p2 : Token) : result HyObject :=
  set_boundaries p0 (Some p2) (Ok (HyList p1)).

(** [list : LBRACKET RBRACKET] *)
Definition t_empty_list (p0 p1 : Token) : result HyObject :=
  set_boundaries p0 (Some p1) (Ok (HyList [])).

(** The double quote, and three of them. *)
Definition dquote : ascii := ascii_of_nat 34.
Definition triple_quote : string :=
  String dquote (String dquote (String dquote EmptyString)).

(** [string : STRING], lines 269-275. *)
Definition t_string (p0 : Token) : result HyObject :=
  set_boundaries p0 None
    (match eval_literal
             (Py.slice (Py.replace_first dquote triple_quote (value p0))
                None (Some (-1)) ++ triple_quote) with
     | Some (inl s) => Ok (HyString s None)
     | Some (inr s) => Ok (HyBytes s)
     | None => Raise (PythonError "SyntaxError")
     end).

(** [string : PARTIAL_STRING], lines 278-281: not decorated. *)
Definition t_partial_string (p0 : Token) : result HyObject :=
  Raise (PrematureEndOfInput "Premature end of input").

(** [string : BRACKETSTRING], lines 285-290. *)
Definition t_bracket_string (p0 : Token) : result HyObject :=
  set_boundaries p0 None
    (match bracket_string_groups (value p0) with
     | Some (delim, content) => Ok (HyString content (Some delim))
     | None => Raise (PythonError "AttributeError")
     end).

(** [symbol_like], lines 313-341.  Each [try] falls through to the next
    attempt on ValueError; the result [None] is Python's [None]. *)
Definition symbol_like (obj : string) : option HyObject :=
  match integer_of obj with
  | Some z => Some (HyInteger z)
  | None =>
  match
    (if Py.contains "/" obj then
       match Py.split "/" obj with
       | [lhs; rhs] =>
           match integer_of lhs, integer_of rhs with
           | Some l, Some r =>
               Some (HyExpression [HySymbol "fraction"; HyInteger l; HyInteger r])
           | _, _ => None
           end
       | _ => None
       end
     else None)
  with
  | Some fraction => Some fraction
  | None =>
  match float_of obj with
  | Some f => Some (HyFloat f)
  | None =>
  match (if negb (obj =? "j")%string then complex_of obj else None) with
  | Some c => Some (HyComplex c)
  | None =>
  if Py.startswith obj ":" && negb (Py.contains "." obj)
  then Some (HyKeyword obj)
  else None
  end end end end.

Definition not_a_name : string :=
  "Cannot access attribute on anything other than a name (in "
  ++ "order to get attributes of expressions, use "
  ++ "`(. <expression> <attr>)` or `(.<attr> <expression>)`)".

(** [identifier : IDENTIFIER], lines 293-310. *)
Definition t_identifier (p0 : Token) : result HyObject :=
  set_boundaries p0 None
    (let obj := value p0 in
     match symbol_like obj with
     | Some val => Ok val
     | None =>
         if Py.contains "." obj
            && match Py.split1 "." obj with
               | first :: _ =>
                   match symbol_like first with Some _ => true | None => false end
               | [] => false
               end
         then Raise (LexException not_a_name
                       (lineno (source_pos p0)) (colno (source_pos p0)))
         else Ok (HySymbol (Py.join "." (map hy_symbol_mangle (Py.split "." obj))))
     end).

(** [error_handler], lines 344-352: what rply calls on a token no
    production can continue with. *)
Definition error_handler (token : Token) : exception :=
  match name token with
  | END => PrematureEndOfInput "Premature end of input"
  | tokentype =>
      LexException
        ("Ran into a " ++ terminal_name tokentype ++ " where it wasn't expected.")
        (lineno (source_pos token)) (colno (source_pos token))
  end.

(** ** The grammar

    One constructor per [@pg.production] line.  The unit productions
    [term : identifier | paren | dict | list | set | string] are folded
    into the constructors of the productions they lead to.  A tree is a
    derivation of the grammar; rply's LR engine runs the action of a
    production when it reduces, that is after the actions of the symbols
    of its right-hand side, taken from left to right. *)

Inductive term_tree : Type :=
| Identifier (t : Token)
| Paren (l : Token) (c : contents_tree) (r : Token)
| EmptyParen (l r : Token)
| Set_ (l : Token) (c : contents_tree) (r : Token)
| EmptySet (l r : Token)
| Dict (l : Token) (c : contents_tree) (r : Token)
| EmptyDict (l r : Token)
| List_ (l : Token) (c : contents_tree) (r : Token)
| EmptyList (l r : Token)
| String_ (t : Token)
| PartialString (t : Token)
| BracketString (t : Token)
| Discard (d : Token) (t1 t2 : term_tree)
| Quote (q : Token) (t : term_tree)
| Quasiquote (q : Token) (t : term_tree)
| Unquote (q : Token) (t : term_tree)
| UnquoteSplice (q : Token) (t : term_tree)
| Hashstars (q : Token) (t : term_tree)
| HashOther (q : Token) (t : term_tree)
with contents_tree : Type :=
| Contents (t : term_tree) (rest : contents_tree)
| Single (t : term_tree)
| Discarded (d : Token) (t : term_tree) (tail : discarded_tree)
with discarded_tree : Type :=
| DiscardedMore (d : Token) (t : term_tree) (tail : discarded_tree)
| DiscardedEnd.

Inductive main_tree : Type :=
| Main (c : contents_tree)
| MainEmpty.

(** The tokens a derivation spans, in order. *)
Fixpoint yield_term (t : term_tree) : list Token :=
  match t with
  | Identifier t | String_ t | PartialString t | BracketString t => [t]
  | Paren l c r | Set_ l c r | Dict l c r | List_ l c r =>
      l :: yield_contents c ++ [r]
  | EmptyParen l r | EmptySet l r | EmptyDict l r | EmptyList l r => [l; r]
  | Discard d t1 t2 => d :: yield_term t1 ++ yield_term t2
  | Quote q t | Quasiquote q t | Unquote q t | UnquoteSplice q t
  | Hashstars q t | HashOther q t => q :: yield_term t
  end
with yield_contents (c : contents_tree) : list Token :=
  match c with
  | Contents t rest => yield_term t ++ yield_contents rest
  | Single t => yield_term t
  | Discarded d t tail => d :: yield_term t ++ yield_discarded tail
  end
with yield_discarded (d : discarded_tree) : list Token :=
  match d with
  | DiscardedMore d t tail => d :: yield_term t ++ yield_discarded tail
  | DiscardedEnd => []
  end.

Definition yield (m : main_tree) : list Token :=
  match m with
  | Main c => yield_contents c
  | MainEmpty => []
  end.

Definition terminal_eqb (a b : terminal) : bool :=
  (terminal_name a =? terminal_name b)%string.

Definition is_a (k : terminal) (t : Token) : bool := terminal_eqb (name t) k.

(** Every token of the derivation has the type its production names. *)
Fixpoint typed_term (t : term_tree) : bool :=
  match t with
  | Identifier t => is_a IDENTIFIER t
  | Paren l c r => is_a LPAREN l && typed_contents c && is_a RPAREN r
  | EmptyParen l r => is_a LPAREN l && is_a RPAREN r
  | Set_ l c r => is_a HLCURLY l && typed_contents c && is_a RCURLY r
  | EmptySet l r => is_a HLCURLY l && is_a RCURLY r
  | Dict l c r => is_a LCURLY l && typed_contents c && is_a RCURLY r
  | EmptyDict l r => is_a LCURLY l && is_a RCURLY r
  | List_ l c r => is_a LBRACKET l && typed_contents c && is_a RBRACKET r
  | EmptyList l r => is_a LBRACKET l && is_a RBRACKET r
  | String_ t => is_a STRING t
  | PartialString t => is_a PARTIAL_STRING t
  | BracketString t => is_a BRACKETSTRING t
  | Discard d t1 t2 => is_a DISCARD d && typed_term t1 && typed_term t2
  | Quote q t => is_a QUOTE q && typed_term t
  | Quasiquote q t => is_a QUASIQUOTE q && typed_term t
  | Unquote q t => is_a UNQUOTE q && typed_term t
  | UnquoteSplice q t => is_a UNQUOTESPLICE q && typed_term t
  | Hashstars q t => is_a HASHSTARS q && typed_term t
  | HashOther q t => is_a HASHOTHER q && typed_term t
  end
with typed_contents (c : contents_tree) : bool :=
  match c with
  | Contents t rest => typed_term t && typed_contents rest
  | Single t => typed_term t
  | Discarded d t tail => is_a DISCARD d && typed_term t && typed_discarded tail
  end
with typed_discarded (d : discarded_tree) : bool :=
  match d with
  | DiscardedMore d t tail => is_a DISCARD d && typed_term t && typed_discarded tail
  | DiscardedEnd => true
  end.

Definition typed (m : main_tree) : bool :=
  match m with
  | Main c => typed_contents c
  | MainEmpty => true
  end.

(** The types of the tokens a term starts with: all but the closing
    brackets and the end of the stream. *)
Definition starts_term (k : terminal) : bool :=
  match k with
  | RPAREN | RBRACKET | RCURLY | END => false
  | _ => true
  end.

(** What a [list_contents] stops at: the end of the stream, or a token
    that starts no term. *)
Definition closes (rest : list Token) : bool :=
  match rest with
  | [] => true
  | t :: _ => negb (starts_term (name t))
  end.

(** Derivations are told apart by their tokens; the statements are
    indexed by the number of tokens of the two derivations compared. *)
Definition term_inj (n : nat) : Prop :=
  forall t1 t2 r1 r2,
    (List.length (yield_term t1) + List.length (yield_term t2) <= n)%nat ->
    typed_term t1 = true -> typed_term t2 = true ->
    (yield_term t1 ++ r1 = yield_term t2 ++ r2)%list ->
    t1 = t2 /\ r1 = r2.

Definition contents_inj (n : nat) : Prop :=
  forall c1 c2 r1 r2,
    (List.length (yield_contents c1) + List.length (yield_contents c2) <= n)%nat ->
    typed_contents c1 = true -> typed_contents c2 = true ->
    closes r1 = true -> closes r2 = true ->
    (yield_contents c1 ++ r1 = yield_contents c2 ++ r2)%list ->
    c1 = c2 /\ r1 = r2.

Definition discarded_inj (n : nat) : Prop :=
  forall d1 d2 r1 r2,
    (List.length (yield_discarded d1) + List.length (yield_discarded d2) <= n)%nat ->
    typed_discarded d1 = true -> typed_discarded d2 = true ->
    closes r1 = true -> closes r2 = true ->
    (yield_discarded d1 ++ r1 = yield_discarded d2 ++ r2)%list ->
    d1 = d2 /\ r1 = r2.

(** A term followed by anything is not a run of discards followed by the
    end of the contents. *)
Definition term_not_discarded (n : nat) : Prop :=
  forall t d x r,
    (List.length (yield_term t) + List.length (yield_discarded d) <= n)%nat ->
    typed_term t = true -> typed_discarded d = true ->
    closes r = true ->
    (yield_term t ++ x = yield_discarded d ++ r)%list ->
    False.

(** The actions of a derivation, run in the order of the reductions; the
    first exception ends the parse. *)
Fixpoint eval_term (t : term_tree) : result HyObject :=
  match t with
  | Identifier t => v <- t_identifier t ;; Ok (term v)
  | Paren l c r => p1 <- eval_contents c ;; v <- paren l p1 r ;; Ok (term v)
  | EmptyParen l r => v <- empty_paren l r ;; Ok (term v)
  | Set_ l c r => p1 <- eval_contents c ;; v <- t_set l p1 r ;; Ok (term v)
  | EmptySet l r => v <- empty_set l r ;; Ok (term v)
  | Dict l c r => p1 <- eval_contents c ;; v <- t_dict l p1 r ;; Ok (term v)
  | EmptyDict l r => v <- empty_dict l r ;; Ok (term v)
  | List_ l c r => p1 <- eval_contents c ;; v <- t_list l p1 r ;; Ok (term v)
  | EmptyList l r => v <- t_empty_list l r ;; Ok (term v)
  | String_ t => v <- t_string t ;; Ok (term v)
  | PartialString t => v <- t_partial_string t ;; Ok (term v)
  | BracketString t => v <- t_bracket_string t ;; Ok (term v)
  | Discard d t1 t2 =>
      p1 <- eval_term t1 ;; p2 <- eval_term t2 ;; Ok (term_discard d p1 p2)
  | Quote q t => p1 <- eval_term t ;; term_quote q p1
  | Quasiquote q t => p1 <- eval_term t ;; term_quasiquote q p1
  | Unquote q t => p1 <- eval_term t ;; term_unquote q p1
  | UnquoteSplice q t => p1 <- eval_term t ;; term_unquote_splice q p1
  | Hashstars q t => p1 <- eval_term t ;; term_hashstars q p1
  | HashOther q t => p1 <- eval_term t ;; hash_other q p1
  end
with eval_contents (c : contents_tree) : result (list HyObject) :=
  match c with
  | Contents t rest =>
      p0 <- eval_term t ;; p1 <- eval_contents rest ;; Ok (list_contents p0 p1)
  | Single t => p0 <- eval_term t ;; Ok (list_contents_single p0)
  | Discarded d t tail =>
      p1 <- eval_term t ;; p2 <- eval_discarded tail ;;
      Ok (list_contents_empty d p1 p2)
  end
with eval_discarded (d : discarded_tree) : result unit :=
  match d with
  | DiscardedMore d t tail =>
      eval_term t ;;; eval_discarded tail ;;; Ok discarded_list_contents
  | DiscardedEnd => Ok discarded_list_contents
  end.

Definition eval_main (m : main_tree) : result (list HyObject) :=
  match m with
  | Main c => p0 <- eval_contents c ;; Ok (main p0)
  | MainEmpty => Ok main_empty
  end.

(** The parser on a token stream of the language of the grammar: the
    outcome of the actions of a derivation of the stream. *)
Definition parses (tokens : list Token) (outcome : result (list HyObject)) : Prop :=
  exists m, typed m = true /\ yield m = tokens /\ eval_main m = outcome.

(** ** Equality of models

    The models compare by value: the span attributes take no part in
    [==].  [strip] forgets them, so two objects are equal for Python when
    their [strip]s are the same. *)
Fixpoint strip (o : HyObject) : HyObject :=
  match o with
  | HyAtom a _ => HyAtom a None
  | HySeq k items _ => HySeq k (map strip items) None
  | HyCons_ car cdr _ => HyCons_ (strip car) (strip cdr) None
  end.

Definition strip_result {A} (f : A -> A) (r : result A) : result A :=
  match r with
  | Ok a => Ok (f a)
  | Raise e => Raise e
  end.

End Reader.

(** ** A host for running the reader

    The reader is stated over every [Host].  To run it on concrete token
    streams the numeric constructors need a definition; hy.models is not
    part of hy/lex/parser.py, so the one below follows the description of
    the literals in the specification of the reader. *)

Module Literal.

Definition digit_value (c : ascii) : option Z :=
  let n := Z.of_nat (nat_of_ascii c) in
  if (48 <=? n) && (n <=? 57) then Some (n - 48)
  else if (97 <=? n) && (n <=? 122) then Some (n - 87)
  else if (65 <=? n) && (n <=? 90) then Some (n - 55)
  else None.

(** Digits of [base] with single underscores between them for grouping;
    [after_digit] tells that the previous character was a digit. *)
Fixpoint grouped (base : Z) (s : string) (acc : Z) (after_digit : bool)
  : option Z :=
  match s with
  | EmptyString => if after_digit then Some acc else None
  | String c r =>
      if Ascii.eqb c "_" then
        if after_digit then grouped base r acc false else None
      else
        match digit_value c with
        | Some d => if d <? base then grouped base r (acc * base + d) true else None
        | None => None
        end
  end.

Definition signed (s : string) : Z * string :=
  match s with
  | String "+" r => (1, r)
  | String "-" r => (-1, r)
  | _ => (1, s)
  end.

(** Modelled from the spec: the constructor [HyInteger] of hy.models on a
    text, "an integer literal (arbitrary sign, standard base prefixes and
    digit grouping as the host numeric-literal syntax defines)". *)
Definition integer (s : string) : option Z :=
  let (sign, body) := signed s in
  match
    match body with
    | String "0" (String "x" r) | String "0" (String "X" r) => grouped 16 r 0 false
    | String "0" (String "o" r) | String "0" (String "O" r) => grouped 8 r 0 false
    | String "0" (String "b" r) | String "0" (String "B" r) => grouped 2 r 0 false
    | _ => grouped 10 body 0 false
    end
  with
  | Some n => Some (sign * n)
  | None => None
  end.

(** A decimal numeral [mantissa * 10 ^ exponent]: the value of a float
    literal as written, before it is rounded to a double. *)
Record decimal : Type := { mantissa : Z; exponent : Z }.

(** The longest run of decimal digits at the head of [s]: the number read
    on top of [acc], how many digits, and what follows. *)
Fixpoint digits (s : string) (acc : Z) (count : nat) : Z * nat * string :=
  match s with
  | EmptyString => (acc, count, s)
  | String c r =>
      let n := Z.of_nat (nat_of_ascii c) in
      if (48 <=? n) && (n <=? 57) then digits r (acc * 10 + (n - 48)) (S count)
      else (acc, count, s)
  end.

Definition exponent_part (s : string) : option Z :=
  match s with
  | EmptyString => Some 0
  | String c r =>
      if Ascii.eqb c "e" || Ascii.eqb c "E" then
        let (sign, r) := signed r in
        match digits r 0 0 with
        | (e, S _, EmptyString) => Some (sign * e)
        | _ => None
        end
      else None
  end.

(** Modelled from the spec: the constructor [HyFloat] of hy.models on a
    text, "a floating-point literal": sign, integer digits, a fraction
    after a point, a decimal exponent.  The infinities and the
    not-a-number of the host are left out. *)
Definition float (s : string) : option decimal :=
  let (sign, body) := signed s in
  let '(i, ni, rest) := digits body 0 0 in
  let '(m, nf, rest) :=
    match rest with
    | String "." r => digits r i 0
    | _ => (i, 0%nat, rest)
    end in
  if (ni + nf =? 0)%nat then None
  else
    match exponent_part rest with
    | Some e => Some {| mantissa := sign * m; exponent := e - Z.of_nat nf |}
    | None => None
    end.

Definition imaginary (s : string) : option decimal :=
  match s with
  | EmptyString | String "+" EmptyString => Some {| mantissa := 1; exponent := 0 |}
  | String "-" EmptyString => Some {| mantissa := -1; exponent := 0 |}
  | _ => float s
  end.

(** The cuts of [body] into a real and a signed imaginary part, tried at
    every position from [k] characters before the end. *)
Fixpoint two_parts (body : string) (k : nat) : option (decimal * decimal) :=
  match k with
  | O => None
  | S k' =>
      let i := (String.length body - k)%nat in
      match float (substring 0 i body),
            imaginary (substring i k body) with
      | Some re, Some im =>
          match String.get i body with
          | Some "+"%char | Some "-"%char => Some (re, im)
          | _ => two_parts body k'
          end
      | _, _ => two_parts body k'
      end
  end.

(** Modelled from the spec: the constructor [HyComplex] of hy.models on a
    text, "a complex literal (real and/or imaginary parts, imaginary
    suffix required)". *)
Definition complex (s : string) : option (decimal * decimal) :=
  if Py.endswith s "j" || Py.endswith s "J" then
    let body := Py.slice s None (Some (-1)) in
    match imaginary body with
    | Some im => Some ({| mantissa := 0; exponent := 0 |}, im)
    | None => two_parts body (String.length body - 1)
    end
  else None.

(** [str.upper] on the letters of ASCII. *)
Fixpoint ascii_upper (s : string) : string :=
  match s with
  | EmptyString => EmptyString
  | String c r =>
      let n := nat_of_ascii c in
      String (if (97 <=? n)%nat && (n <=? 122)%nat then ascii_of_nat (n - 32) else c)
             (ascii_upper r)
  end.

(** A string literal between triple quotes, without prefix and without
    escape sequence, evaluates to its content; no other literal is
    evaluated here. *)
Definition plain_literal (s : string) : option (string + string) :=
  let n := String.length s in
  if (6 <=? n)%nat
     && Py.startswith s triple_quote && Py.endswith s triple_quote
     && negb (Py.contains "\" s)
  then Some (inl (substring 3 (n - 6) s))
  else None.

(** The delimiter and the content of [#[delim[content]delim]]. *)
Definition bracket_groups (s : string) : option (string * string) :=
  match s with
  | String "#" (String "[" r) =>
      match Py.split1 "[" r with
      | [delim; rest] =>
          let close := "]" ++ delim ++ "]" in
          if Py.endswith rest close
          then Some (delim,
                     substring 0 (String.length rest - String.length close) rest)
          else None
      | _ => None
      end
  | _ => None
  end.

(** Modelled from the spec: the parts of hy.models, of Python and of the
    lexer that hy/lex/parser.py calls, as described for the classifier
    and the string terminals. *)
Definition host : Host := {|
  pyfloat := decimal;
  pycomplex := decimal * decimal;
  integer_of := integer;
  float_of := float;
  complex_of := complex;
  upper := ascii_upper;
  eval_literal := plain_literal;
  bracket_string_groups := bracket_groups
|}.

End Literal.

(** Tokens for examples: a token of type [k] and text [v] at line 1,
    column [c]. *)
Definition tok (k : terminal) (v : string) (c : Z) : Token :=
  {| name := k; value := v; source_pos := {| idx := c - 1; lineno := 1; colno := c |} |}.

Module Example.

#[local] Existing Instance Literal.host.

(** The derivation of an identifier token of text [v] at column [c]. *)
Definition ident (v : string) (c : Z) : term_tree :=
  Identifier (tok IDENTIFIER v c).

Definition lparen (c : Z) : Token := tok LPAREN "(" c.

Definition rparen (c : Z) : Token := tok RPAREN ")" c.

Definition discard (c : Z) : Token := tok DISCARD "#_" c.

(** The symbol [n] with the span of a token of [w] characters at column
    [c]. *)
Definition symbol (n : string) (c w : Z) : HyObject :=
  HyAtom (ASymbol n)
    (Some {| start_line := 1; start_column := c;
             end_line := 1; end_column := c + w |}).

(** An expression with the span of the parentheses at columns [c] and
    [c']. *)
Definition expression (items : list HyObject) (c c' : Z) : HyObject :=
  HySeq KExpression items
    (Some {| start_line := 1; start_column := c;
             end_line := 1; end_column := c' |}).

End Example.

(** ** The rules of the specification, in its words

    The properties below compare what the code computes with slices and
    searches to the shape of the text that the specification describes:
    [s] starts with [pre] when it is [pre] followed by something, and so
    on. *)

Module Spec.

Definition starts_with (s pre : string) : Prop := exists r, s = pre ++ r.

Definition ends_with (s suf : string) : Prop := exists r, s = r ++ suf.

(** The character [c] occurs in [s]. *)
Definition occurs (c : ascii) (s : string) : Prop :=
  exists a b, s = a ++ String c b.

(** [segs] are the segments of [s] between the occurrences of [c]. *)
Definition segments (c : ascii) (s : string) (segs : list string) : Prop :=
  s = String.concat (String c "") segs
  /\ Forall (fun seg => ~ occurs c seg) segs
  /\ segs <> [].

(** Every "-" of [s] replaced by "_". *)
Definition underscored (s : string) : string :=
  string_of_list_ascii
    (map (fun c => if ascii_dec c "-" then "_"%char else c)
         (list_ascii_of_string s)).

(** A rule that rewrites [s] when [condition] holds and keeps it
    otherwise. *)
Definition rule (condition : Prop) (rewritten : string -> Prop) (s s' : string)
  : Prop :=
  (condition /\ rewritten s') \/ (~ condition /\ s' = s).

Section Rules.

Context {host : Host}.

(** Rule 1: earmuffs. *)
Definition earmuffs (s s' : string) : Prop :=
  rule (starts_with s "*" /\ ends_with s "*" /\ s <> "*" /\ s <> "**")
       (fun s' => exists body, s = "*" ++ body ++ "*" /\ s' = upper body)
       s s'.

(** Rule 2: hyphens. *)
Definition hyphens (s s' : string) : Prop :=
  rule (occurs "-" s /\ s <> "-") (fun s' => s' = underscored s) s s'.

(** Rule 3: a trailing question mark. *)
Definition question (s s' : string) : Prop :=
  rule (ends_with s "?" /\ s <> "?")
       (fun s' => exists r, s = r ++ "?" /\ s' = "is_" ++ r)
       s s'.

(** Rule 4: a trailing exclamation mark. *)
Definition bang (s s' : string) : Prop :=
  rule (ends_with s "!" /\ s <> "!")
       (fun s' => exists r, s = r ++ "!" /\ s' = r ++ "_bang")
       s s'.

(** The four rules in their order, each on the output of the previous. *)
Definition mangled (s out : string) : Prop :=
  exists s1 s2 s3,
    earmuffs s s1 /\ hyphens s1 s2 /\ question s2 s3 /\ bang s3 out.

(** Step 2 of the classifier: exactly one "/" with an integer on each
    side. *)
Definition fraction_of (t : string) (l r : Z) : Prop :=
  exists lhs rhs,
    t = lhs ++ "/" ++ rhs /\ ~ occurs "/" lhs /\ ~ occurs "/" rhs
    /\ integer_of lhs = Some l /\ integer_of rhs = Some r.

(** Step 5 of the classifier. *)
Definition keyword_like (t : string) : Prop :=
  starts_with t ":" /\ ~ occurs "." t.

(** One of the steps 1 to 5 succeeds on [t]. *)
Definition literal_like (t : string) : Prop :=
  integer_of t <> None
  \/ (exists l r, fraction_of t l r)
  \/ float_of t <> None
  \/ (t <> "j" /\ complex_of t <> None)
  \/ keyword_like t.

(** [t] has a "." and what precedes its first "." succeeds at one of the
    steps 1 to 5. *)
Definition dotted_literal (t : string) : Prop :=
  exists first rest,
    t = first ++ "." ++ rest /\ ~ occurs "." first /\ literal_like first.

(** The classification of the text of an identifier token: the steps in
    their order, each one under the failure of those before it; the last
    two share what remains, the error for a dotted literal and the symbol
    for everything else. *)
Inductive classified (p0 : Token) : result HyObject -> Prop :=
| is_integer z :
    integer_of (value p0) = Some z ->
    classified p0 (Ok (HyInteger z))
| is_fraction l r :
    integer_of (value p0) = None ->
    fraction_of (value p0) l r ->
    classified p0
      (Ok (HyExpression [HySymbol "fraction"; HyInteger l; HyInteger r]))
| is_float f :
    integer_of (value p0) = None ->
    (forall l r, ~ fraction_of (value p0) l r) ->
    float_of (value p0) = Some f ->
    classified p0 (Ok (HyFloat f))
| is_complex c :
    integer_of (value p0) = None ->
    (forall l r, ~ fraction_of (value p0) l r) ->
    float_of (value p0) = None ->
    value p0 <> "j" ->
    complex_of (value p0) = Some c ->
    classified p0 (Ok (HyComplex c))
| is_keyword :
    integer_of (value p0) = None ->
    (forall l r, ~ fraction_of (value p0) l r) ->
    float_of (value p0) = None ->
    (value p0 = "j" \/ complex_of (value p0) = None) ->
    keyword_like (value p0) ->
    classified p0 (Ok (HyKeyword (value p0)))
| is_dotted_literal :
    ~ literal_like (value p0) ->
    dotted_literal (value p0) ->
    classified p0
      (Raise (LexException not_a_name
                (lineno (source_pos p0)) (colno (source_pos p0))))
| is_symbol segs :
    ~ literal_like (value p0) ->
    ~ dotted_literal (value p0) ->
    segments "." (value p0) segs ->
    classified p0
      (Ok (HySymbol (String.concat "." (map hy_symbol_mangle segs)))).

(** The names of all the symbols of an object, itself included. *)
Fixpoint symbol_names (o : HyObject) : list string :=
  match o with
  | HyAtom (ASymbol s) _ => [s]
  | HyAtom _ _ => []
  | HySeq _ items _ => flat_map symbol_names items
  | HyCons_ car cdr _ => symbol_names car ++ symbol_names cdr
  end.

(** The span [set_boundaries] gives to a form between the tokens [l] and
    [r]: from the start of the one to the start of the other. *)
Definition form_span (l r : Token) : boundaries :=
  {| start_line := lineno (source_pos l);
     start_column := colno (source_pos l);
     end_line := lineno (source_pos r);
     end_column := colno (source_pos r) |}.

(** The nested cons cells of the dotted list of [items] ending in [last];
    each cell carries the span [sp]. *)
Fixpoint dotted_list (sp : boundaries) (items : list HyObject) (last : HyObject)
  : HyObject :=
  match items with
  | [] => last
  | item :: rest => HyCons_ item (dotted_list sp rest last) (Some sp)
  end.

(** The contents end in a separator dot and a last item, after at least
    one item. *)
Definition dotted_tail (items : list HyObject) : Prop :=
  exists init sep z,
    items = (init ++ [sep; z])%list /\ init <> [] /\ is_dot sep = true.

(** The span [set_quote_boundaries] gives to a form made of the marker
    [q] and a term whose span is [b]. *)
Definition quote_span (q : Token) (b : boundaries) : boundaries :=
  {| start_line := lineno (source_pos q);
     start_column := colno (source_pos q);
     end_line := end_line b;
     end_column := end_column b |}.

(** [n] asterisks. *)
Fixpoint asterisks (n : nat) : string :=
  match n with
  | O => ""
  | S n => String "*" (asterisks n)
  end.

Definition returns {A} (r : result A) : bool :=
  match r with
  | Ok _ => true
  | Raise _ => false
  end.

(** The derivation has a PARTIAL_STRING token, and every action the
    parser runs before it reduces that token returns. *)
Fixpoint reaches_partial_term (t : term_tree) : bool :=
  match t with
  | PartialString _ => true
  | Paren _ c _ | Set_ _ c _ | Dict _ c _ | List_ _ c _ =>
      reaches_partial_contents c
  | Discard _ t1 t2 =>
      reaches_partial_term t1
      || (returns (eval_term t1) && reaches_partial_term t2)
  | Quote _ t | Quasiquote _ t | Unquote _ t | UnquoteSplice _ t
  | Hashstars _ t | HashOther _ t => reaches_partial_term t
  | _ => false
  end
with reaches_partial_contents (c : contents_tree) : bool :=
  match c with
  | Contents t rest =>
      reaches_partial_term t
      || (returns (eval_term t) && reaches_partial_contents rest)
  | Single t => reaches_partial_term t
  | Discarded _ t tail =>
      reaches_partial_term t
      || (returns (eval_term t) && reaches_partial_discarded tail)
  end
with reaches_partial_discarded (d : discarded_tree) : bool :=
  match d with
  | DiscardedMore _ t tail =>
      reaches_partial_term t
      || (returns (eval_term t) && reaches_partial_discarded tail)
  | DiscardedEnd => false
  end.

Definition reaches_partial (m : main_tree) : bool :=
  match m with
  | Main c => reaches_partial_contents c
  | MainEmpty => false
  end.

(** The span attributes of [o] have been set. *)
Definition spanned (o : HyObject) : Prop := span_of o <> None.

End Rules.

(** A segment is free of hyphens unless it is the hyphen itself. *)
Definition hyphen_free (seg : string) : Prop := occurs "-" seg -> seg = "-".

(** No hyphen, or the hyphen alone. *)
Definition tidy (s : string) : Prop := ~ occurs "-" s \/ s = "-".

(** [name] is made of segments joined by ".", each free of hyphens. *)
Definition hyphen_free_segments (name : string) : Prop :=
  exists segs, name = String.concat "." segs /\ Forall hyphen_free segs.

End Spec.

(** ** The unmangler *)

Section Unmangle.

(** [c.isalpha()] and [c.isupper()] on a character, and [p.lower()]:
    methods of Python's strings, parameters here as [upper] is. *)
Variable isalpha : ascii -> bool.
Variable isupper : ascii -> bool.
Variable lower : string -> string.

(** [hy_symbol_unmangle], lines 41-60.  [str_type(p)] leaves a text as
    it is; each [let] after it is one of the four reassignments. *)
Definition hy_symbol_unmangle (p : string) : string :=
  let p := p in
  let p :=
    if Py.endswith p "_bang" && negb (p =? "_bang")%string
    then Py.slice p None (Some (- strlen "_bang")) ++ "!"
    else p in
  let p :=
    if Py.startswith p "is_" && negb (p =? "is_")%string
    then Py.slice p (Some (strlen "is_")) None ++ "?"
    else p in
  let p :=
    if Py.contains "_" p && negb (p =? "_")%string
    then Py.replace "_" "-" p
    else p in
  let p :=
    if forallb (fun c => isalpha c && isupper c || Ascii.eqb c "_")
         (list_ascii_of_string p)
       && existsb isalpha (list_ascii_of_string p)
    then "*" ++ lower p ++ "*"
    else p in
  p.

(** The test of the last step of the unmangler: upper-case letters and
    underscores only, with a letter among them. *)
Definition constant_like (p : string) : bool :=
  forallb (fun c => isalpha c && isupper c || Ascii.eqb c "_")
    (list_ascii_of_string p)
  && existsb isalpha (list_ascii_of_string p).

(** Every character of [p] is an upper-case letter. *)
Definition upper_letters (p : string) : bool :=
  forallb (fun c => isalpha c && isupper c) (list_ascii_of_string p).

End Unmangle.

(** The letters of ASCII, to run the unmangler. *)
Module Letters.

Definition isalpha (c : ascii) : bool :=
  let n := nat_of_ascii c in
  ((65 <=? n) && (n <=? 90) || (97 <=? n) && (n <=? 122))%nat.

Definition isupper (c : ascii) : bool :=
  let n := nat_of_ascii c in
  ((65 <=? n) && (n <=? 90))%nat.

Fixpoint lower (s : string) : string :=
  match s with
  | EmptyString => EmptyString
  | String c r =>
      let n := nat_of_ascii c in
      String (if (65 <=? n)%nat && (n <=? 90)%nat then ascii_of_nat (n + 32) else c)
             (lower r)
  end.

End Letters.

(** ** Spans and errors, read off the tokens *)

Module Tokens.

(** The token at which the span of a term starts: its first token, past
    the terms it discards. *)
Fixpoint leading_token (t : term_tree) : Token :=
  match t with
  | Identifier t | String_ t | PartialString t | BracketString t => t
  | Paren l _ _ | Set_ l _ _ | Dict l _ _ | List_ l _ _ => l
  | EmptyParen l _ | EmptySet l _ | EmptyDict l _ | EmptyList l _ => l
  | Discard _ _ t2 => leading_token t2
  | Quote q _ | Quasiquote q _ | Unquote q _ | UnquoteSplice q _
  | Hashstars q _ | HashOther q _ => q
  end.

(** The line and the column at which the span of a term ends: after the
    text of a single token, at the start of a closing bracket, and where
    the wrapped term ends for a marker. *)
Fixpoint closing_position (t : term_tree) : Z * Z :=
  match t with
  | Identifier t | String_ t | PartialString t | BracketString t =>
      (lineno (source_pos t), colno (source_pos t) + strlen (value t))
  | Paren _ _ r | Set_ _ _ r | Dict _ _ r | List_ _ _ r =>
      (lineno (source_pos r), colno (source_pos r))
  | EmptyParen _ r | EmptySet _ r | EmptyDict _ r | EmptyList _ r =>
      (lineno (source_pos r), colno (source_pos r))
  | Discard _ _ t2 => closing_position t2
  | Quote _ t | Quasiquote _ t | Unquote _ t | UnquoteSplice _ t
  | Hashstars _ t | HashOther _ t => closing_position t
  end.

Definition token_span (t : term_tree) : boundaries :=
  {| start_line := lineno (source_pos (leading_token t));
     start_column := colno (source_pos (leading_token t));
     end_line := fst (closing_position t);
     end_column := snd (closing_position t) |}.

(** The error is one the reader raises itself. *)
Definition reader_error (e : exception) : Prop :=
  match e with
  | LexException _ _ _ | PrematureEndOfInput _ => True
  | PythonError _ => False
  end.

(** The messages of the malformed-input errors of the reader. *)
Definition messages : list string :=
  ["Malformed dotted list"; too_many_stars; not_a_name]%list.

(** A token of [tokens] stands at line [line], column [column]. *)
Definition located (tokens : list Token) (line column : Z) : Prop :=
  exists t, In t tokens
            /\ lineno (source_pos t) = line /\ colno (source_pos t) = column.

(** What an error of a parse of [tokens] is: a malformed-input error
    with one of the messages, at a token; the request for more input; or
    an error of Python, and then only when [read] is false. *)
Definition accounted (tokens : list Token) (read : bool) (e : exception) : Prop :=
  match e with
  | LexException message line column =>
      In message messages /\ located tokens line column
  | PrematureEndOfInput message => message = "Premature end of input"
  | PythonError _ => read = false
  end.

Section Values.

Context {host : Host}.

(** Every STRING and BRACKETSTRING token of the derivation is one that
    the host evaluates. *)
Fixpoint literals_read_term (t : term_tree) : bool :=
  match t with
  | String_ t => Spec.returns (t_string t)
  | BracketString t => Spec.returns (t_bracket_string t)
  | Paren _ c _ | Set_ _ c _ | Dict _ c _ | List_ _ c _ =>
      literals_read_contents c
  | Discard _ t1 t2 => literals_read_term t1 && literals_read_term t2
  | Quote _ t | Quasiquote _ t | Unquote _ t | UnquoteSplice _ t
  | Hashstars _ t | HashOther _ t => literals_read_term t
  | _ => true
  end
with literals_read_contents (c : contents_tree) : bool :=
  match c with
  | Contents t rest => literals_read_term t && literals_read_contents rest
  | Single t => literals_read_term t
  | Discarded _ t tail => literals_read_term t && literals_read_discarded tail
  end
with literals_read_discarded (d : discarded_tree) : bool :=
  match d with
  | DiscardedMore _ t tail => literals_read_term t && literals_read_discarded tail
  | DiscardedEnd => true
  end.

Definition literals_read (m : main_tree) : bool :=
  match m with
  | Main c => literals_read_contents c
  | MainEmpty => true
  end.

(** No cons cell of the object, at any depth, has the bare dot for its
    head or for its tail. *)
Fixpoint dotless_cons (o : HyObject) : bool :=
  match o with
  | HyAtom _ _ => true
  | HySeq _ items _ => forallb dotless_cons items
  | HyCons_ car cdr _ =>
      negb (is_dot car) && negb (is_dot cdr)
      && dotless_cons car && dotless_cons cdr
  end.

(** The span of [o] starts at a token of [tokens]. *)
Definition starts_at (tokens : list Token) (o : HyObject) : Prop :=
  exists b, span_of o = Some b /\ located tokens (start_line b) (start_column b).

End Values.

End Tokens.

(** * Properties *)

(** ** Facts about the string primitives *)

Module PyFacts.

Lemma length_append (a b : string) :
  String.length (a ++ b) = (String.length a + String.length b)%nat.
Proof. induction a as [|c a IH]; simpl; [reflexivity | now rewrite IH]. Qed.

Lemma substring_zero_all (a b : string) :
  substring 0 (String.length a) (a ++ b) = a.
Proof. induction a as [|c a IH]; simpl; [now destruct b | now rewrite IH]. Qed.

Lemma substring_skip (a b : string) (m : nat) :
  substring (String.length a) m (a ++ b) = substring 0 m b.
Proof. induction a as [|c a IH]; simpl; [reflexivity | assumption]. Qed.

Lemma substring_whole (b : string) : substring 0 (String.length b) b = b.
Proof. induction b as [|c b IH]; simpl; [reflexivity | now rewrite IH]. Qed.

Lemma substring_cut (s : string) (n : nat) :
  (n <= String.length s)%nat ->
  s = substring 0 n s ++ substring n (String.length s - n) s.
Proof.
  revert n; induction s as [|c s IH]; intros [|n] Hn; simpl in *;
    try reflexivity; try lia.
  - now rewrite substring_whole.
  - f_equal. apply IH. lia.
Qed.

Lemma prefix_iff (pre s : string) :
  String.prefix pre s = true <-> exists r, s = pre ++ r.
Proof.
  revert s; induction pre as [|c pre IH]; intros s; simpl.
  - split; [intros _; now exists s | now destruct s].
  - destruct s as [|d s].
    + split; [discriminate | intros [r E]; discriminate].
    + simpl. destruct (ascii_dec c d) as [E|N].
      * subst d. rewrite IH. split; intros [r E]; exists r; [now rewrite E|].
        now injection E.
      * split; [discriminate|]. intros [r E]. injection E as E1 _. congruence.
Qed.

Lemma startswith_iff (s pre : string) :
  Py.startswith s pre = true <-> exists r, s = pre ++ r.
Proof. apply prefix_iff. Qed.

Lemma endswith_iff (s suf : string) :
  Py.endswith s suf = true <-> exists r, s = r ++ suf.
Proof.
  unfold Py.endswith. rewrite andb_true_iff, Nat.leb_le, String.eqb_eq. split.
  - remember (String.length suf) as k eqn:Hk. intros [Hle E].
    exists (substring 0 (String.length s - k) s).
    rewrite <- E.
    pose proof (substring_cut s (String.length s - k)) as C.
    replace (String.length s - (String.length s - k))%nat with k in C by lia.
    apply C. lia.
  - intros [r ->]. rewrite length_append. split; [lia|].
    replace (String.length r + String.length suf - String.length suf)%nat
      with (String.length r) by lia.
    rewrite substring_skip. apply substring_whole.
Qed.

(** [s[:-1]] drops the last character. *)
Lemma slice_init (r : string) (c : ascii) :
  Py.slice (r ++ String c "") None (Some (-1)) = r.
Proof.
  unfold Py.slice, Py.lower_bound, Py.upper_bound, Py.clip.
  rewrite length_append; simpl String.length.
  replace (-1 <? 0) with true by reflexivity.
  rewrite Z.max_r by lia.
  replace (Z.to_nat (Z.of_nat (String.length r + 1) + -1 - 0))
    with (String.length r) by lia.
  apply substring_zero_all.
Qed.

(** [s[1:-1]] drops the first and the last character. *)
Lemma slice_inner (a c : ascii) (body : string) :
  Py.slice (String a (body ++ String c "")) (Some 1) (Some (-1)) = body.
Proof.
  unfold Py.slice, Py.lower_bound, Py.upper_bound, Py.clip.
  simpl String.length. rewrite length_append; simpl String.length.
  replace (1 <? 0) with false by reflexivity.
  replace (-1 <? 0) with true by reflexivity.
  rewrite Z.min_l by lia. rewrite Z.max_r by lia.
  replace (Z.to_nat 1) with 1%nat by reflexivity.
  replace (Z.to_nat _) with (String.length body) by lia.
  simpl. apply substring_zero_all.
Qed.

(** [s[1:]] drops the first character. *)
Lemma slice_tail (a : ascii) (r : string) :
  Py.slice (String a r) (Some 1) None = r.
Proof.
  unfold Py.slice, Py.lower_bound, Py.upper_bound, Py.clip.
  simpl String.length.
  replace (1 <? 0) with false by reflexivity.
  rewrite Z.min_l by lia.
  replace (Z.to_nat 1) with 1%nat by reflexivity.
  replace (Z.to_nat _) with (String.length r) by lia.
  simpl. apply substring_whole.
Qed.

Import Spec.

Lemma occurs_head (c : ascii) (r : string) : occurs c (String c r).
Proof. now exists "", r. Qed.

Lemma occurs_tail (c d : ascii) (r : string) : occurs c r -> occurs c (String d r).
Proof. intros (a & b & ->). now exists (String d a), b. Qed.

Lemma occurs_cons (c d : ascii) (r : string) :
  occurs c (String d r) -> c = d \/ occurs c r.
Proof.
  intros ([|x a] & b & E); simpl in E; injection E as E1 E2.
  - now left.
  - right. now exists a, b.
Qed.

Lemma occurs_nil (c : ascii) : ~ occurs c "".
Proof. intros ([|x a] & b & E); discriminate. Qed.

Lemma occurs_app (c : ascii) (a b : string) :
  occurs c (a ++ b) <-> occurs c a \/ occurs c b.
Proof.
  induction a as [|x a IH]; simpl.
  - split; [now right | intros [N|O]; [now apply occurs_nil in N | assumption]].
  - split.
    + intros O. apply occurs_cons in O as [->|O].
      * left. apply occurs_head.
      * apply IH in O as [O|O]; [left; now apply occurs_tail | now right].
    + intros [O|O].
      * apply occurs_cons in O as [->|O]; [apply occurs_head|].
        apply occurs_tail, IH. now left.
      * apply occurs_tail, IH. now right.
Qed.

(** [c in s], for a character. *)
Lemma contains_iff (c : ascii) (s : string) :
  Py.contains (String c "") s = true <-> occurs c s.
Proof.
  induction s as [|d s IH].
  - simpl. split; [discriminate | intros O; now apply occurs_nil in O].
  - simpl. destruct (ascii_dec c d) as [E|N].
    + subst d. destruct s; simpl; (split; [intros _; apply occurs_head | reflexivity]).
    + simpl. rewrite IH. split; [apply occurs_tail|].
      intros O. apply occurs_cons in O as [E|O]; [contradiction | assumption].
Qed.

Lemma contains_false_iff (c : ascii) (s : string) :
  Py.contains (String c "") s = false <-> ~ occurs c s.
Proof.
  rewrite <- contains_iff. destruct (Py.contains (String c "") s); split;
    congruence.
Qed.

Lemma split_not_nil (c : ascii) (s : string) : Py.split c s <> [].
Proof.
  destruct s as [|d s]; simpl; [discriminate|].
  destruct (Ascii.eqb d c); [discriminate|].
  destruct (Py.split c s); discriminate.
Qed.

Lemma split_without (c : ascii) (a : string) :
  ~ occurs c a -> Py.split c a = [a].
Proof.
  induction a as [|d a IH]; intros N; simpl; [reflexivity|].
  destruct (Ascii.eqb_spec d c) as [E|D].
  - subst d. exfalso. apply N, occurs_head.
  - rewrite IH; [reflexivity|]. intros O. apply N. now apply occurs_tail.
Qed.

Lemma split_at (c : ascii) (a b : string) :
  ~ occurs c a -> Py.split c (a ++ String c b) = a :: Py.split c b.
Proof.
  induction a as [|d a IH]; intros N; simpl.
  - now rewrite Ascii.eqb_refl.
  - destruct (Ascii.eqb_spec d c) as [E|D].
    + subst d. exfalso. apply N, occurs_head.
    + rewrite IH; [reflexivity|]. intros O. apply N. now apply occurs_tail.
Qed.

(** [split] cuts at every separator and nowhere else. *)
Lemma split_segments (c : ascii) (s : string) : segments c s (Py.split c s).
Proof.
  unfold segments. split; [|split; [|apply split_not_nil]].
  - induction s as [|d s IH]; simpl; [reflexivity|].
    destruct (Ascii.eqb_spec d c) as [E|D].
    + subst d. pose proof (split_not_nil c s).
      destruct (Py.split c s) as [|h t] eqn:S; [contradiction|].
      simpl in *. now rewrite <- IH.
    + pose proof (split_not_nil c s).
      destruct (Py.split c s) as [|h t] eqn:S; [contradiction|].
      destruct t; simpl in *; now rewrite IH.
  - induction s as [|d s IH]; simpl.
    + constructor; [apply occurs_nil | constructor].
    + destruct (Ascii.eqb_spec d c) as [E|D].
      * constructor; [apply occurs_nil | assumption].
      * pose proof (split_not_nil c s).
        destruct (Py.split c s) as [|h t] eqn:S; [contradiction|].
        inversion IH as [|h' t' Hh Ht]; subst. constructor; [|assumption].
        intros O. apply occurs_cons in O as [E|O]; [congruence | contradiction].
Qed.

Lemma segments_unique (c : ascii) (s : string) (segs : list string) :
  segments c s segs -> segs = Py.split c s.
Proof.
  intros (E & F & N). subst s. induction segs as [|seg rest IH]; [contradiction|].
  inversion F as [|x y Hseg Hrest]; subst.
  destruct rest as [|seg' rest].
  - simpl. symmetry. now apply split_without.
  - change (String.concat (String c "") (seg :: seg' :: rest))
      with (seg ++ String c (String.concat (String c "") (seg' :: rest))).
    rewrite split_at by assumption. f_equal. apply IH; [assumption | discriminate].
Qed.

(** [split(sep, 1)] cuts at the first separator. *)
Lemma split1_at (c : ascii) (a b : string) :
  ~ occurs c a -> Py.split1 c (a ++ String c b) = [a; b].
Proof.
  induction a as [|d a IH]; intros N; simpl.
  - now rewrite Ascii.eqb_refl.
  - destruct (Ascii.eqb_spec d c) as [E|D].
    + subst d. exfalso. apply N, occurs_head.
    + rewrite IH; [reflexivity|]. intros O. apply N. now apply occurs_tail.
Qed.

Lemma occurs_first (c : ascii) (s : string) :
  occurs c s -> exists a b, s = a ++ String c b /\ ~ occurs c a.
Proof.
  induction s as [|d s IH]; intros O; [now apply occurs_nil in O|].
  destruct (ascii_dec c d) as [E|D].
  - subst d. exists "", s. split; [reflexivity | apply occurs_nil].
  - apply occurs_cons in O as [E|O]; [contradiction|].
    destruct (IH O) as (a & b & -> & N). exists (String d a), b.
    split; [reflexivity|]. intros O'. apply occurs_cons in O' as [E|O']; auto.
Qed.

(** [replace] of a character by a character leaves none behind. *)
Lemma replace_underscored (s : string) :
  Py.replace "-" "_" s = underscored s.
Proof.
  unfold underscored. induction s as [|d s IH]; simpl; [reflexivity|].
  destruct (Ascii.eqb_spec d "-") as [E|D]; destruct (ascii_dec d "-");
    try contradiction; simpl; now rewrite IH.
Qed.

Lemma replace_clean (s : string) : ~ occurs "-" (Py.replace "-" "_" s).
Proof.
  induction s as [|d s IH]; simpl; [apply occurs_nil|].
  destruct (Ascii.eqb_spec d "-") as [E|D]; simpl; intros O;
    apply occurs_cons in O as [E'|O]; try contradiction; try discriminate.
  congruence.
Qed.

Lemma append_inv_last (a b : string) (c : ascii) :
  a ++ String c "" = b ++ String c "" -> a = b.
Proof.
  revert b; induction a as [|x a IH]; intros [|y b] E; simpl in E.
  - reflexivity.
  - injection E as E1 E2. destruct b; discriminate.
  - injection E as E1 E2. destruct a; discriminate.
  - injection E as E1 E2. f_equal; auto.
Qed.

End PyFacts.

(** ** The mangler *)

Section MangleFacts.

Context {host : Host}.

Import Spec PyFacts.

Lemma eqb_false_iff (a b : string) : (a =? b)%string = false <-> a <> b.
Proof. apply String.eqb_neq. Qed.

Lemma earmuffs_shape (p : string) :
  starts_with p "*" -> ends_with p "*" -> p <> "*" ->
  exists body, p = String "*" (body ++ String "*" "").
Proof.
  intros [r E1] [r' E2] N. simpl in E1. subst p.
  destruct r' as [|x body]; simpl in E2.
  - injection E2 as E2. subst r. contradiction.
  - injection E2 as Ex Er. subst. now exists body.
Qed.

Lemma earmuffs_step (p : string) :
  earmuffs p
    (if Py.startswith p "*" && Py.endswith p "*"
        && negb ((p =? "*")%string || (p =? "**")%string)
     then upper (Py.slice p (Some 1) (Some (-1)))
     else p).
Proof.
  unfold earmuffs, rule.
  destruct (Py.startswith p "*" && Py.endswith p "*"
            && negb ((p =? "*")%string || (p =? "**")%string)) eqn:C.
  - left. rewrite !andb_true_iff, negb_true_iff, orb_false_iff in C.
    destruct C as [[S E] [N1 N2]].
    apply startswith_iff in S. apply endswith_iff in E.
    apply eqb_false_iff in N1. apply eqb_false_iff in N2.
    repeat split; try assumption.
    destruct (earmuffs_shape p S E N1) as [body ->].
    exists body. now rewrite slice_inner.
  - right. split; [|reflexivity]. intros (S & E & N1 & N2).
    apply startswith_iff in S. apply endswith_iff in E.
    apply eqb_false_iff in N1. apply eqb_false_iff in N2.
    now rewrite S, E, N1, N2 in C.
Qed.

Lemma hyphens_step (p : string) :
  hyphens p
    (if Py.contains "-" p && negb (p =? "-")%string
     then Py.replace "-" "_" p
     else p).
Proof.
  unfold hyphens, rule.
  destruct (Py.contains "-" p && negb (p =? "-")%string) eqn:C.
  - left. rewrite andb_true_iff, negb_true_iff in C. destruct C as [O N].
    apply contains_iff in O. apply eqb_false_iff in N.
    repeat split; try assumption. apply replace_underscored.
  - right. split; [|reflexivity]. intros (O & N).
    apply contains_iff in O. apply eqb_false_iff in N.
    now rewrite O, N in C.
Qed.

Lemma question_step (p : string) :
  question p
    (if Py.endswith p "?" && negb (p =? "?")%string
     then "is_" ++ Py.slice p None (Some (-1))
     else p).
Proof.
  unfold question, rule.
  destruct (Py.endswith p "?" && negb (p =? "?")%string) eqn:C.
  - left. rewrite andb_true_iff, negb_true_iff in C. destruct C as [E N].
    apply endswith_iff in E. apply eqb_false_iff in N.
    repeat split; try assumption. destruct E as [r ->].
    exists r. now rewrite slice_init.
  - right. split; [|reflexivity]. intros (E & N).
    apply endswith_iff in E. apply eqb_false_iff in N.
    now rewrite E, N in C.
Qed.

Lemma bang_step (p : string) :
  bang p
    (if Py.endswith p "!" && negb (p =? "!")%string
     then Py.slice p None (Some (-1)) ++ "_bang"
     else p).
Proof.
  unfold bang, rule.
  destruct (Py.endswith p "!" && negb (p =? "!")%string) eqn:C.
  - left. rewrite andb_true_iff, negb_true_iff in C. destruct C as [E N].
    apply endswith_iff in E. apply eqb_false_iff in N.
    repeat split; try assumption. destruct E as [r ->].
    exists r. now rewrite slice_init.
  - right. split; [|reflexivity]. intros (E & N).
    apply endswith_iff in E. apply eqb_false_iff in N.
    now rewrite E, N in C.
Qed.

Lemma rule_functional (condition : Prop) (rewritten : string -> Prop)
    (s a b : string) :
  (forall x y, rewritten x -> rewritten y -> x = y) ->
  rule condition rewritten s a -> rule condition rewritten s b -> a = b.
Proof.
  intros F [[C Ra]|[N ->]] [[C' Rb]|[N' ->]];
    try contradiction; [now apply F | reflexivity].
Qed.

Lemma earmuffs_functional (s a b : string) :
  earmuffs s a -> earmuffs s b -> a = b.
Proof.
  apply rule_functional. intros x y (bx & Ex & ->) (by_ & Ey & ->).
  rewrite Ex in Ey. simpl in Ey. injection Ey as Ey.
  apply append_inv_last in Ey. now subst.
Qed.

Lemma hyphens_functional (s a b : string) :
  hyphens s a -> hyphens s b -> a = b.
Proof. apply rule_functional. intros x y -> ->. reflexivity. Qed.

Lemma question_functional (s a b : string) :
  question s a -> question s b -> a = b.
Proof.
  apply rule_functional. intros x y (rx & Ex & ->) (ry & Ey & ->).
  rewrite Ex in Ey. apply append_inv_last in Ey. now subst.
Qed.

Lemma bang_functional (s a b : string) :
  bang s a -> bang s b -> a = b.
Proof.
  apply rule_functional. intros x y (rx & Ex & ->) (ry & Ey & ->).
  rewrite Ex in Ey. apply append_inv_last in Ey. now subst.
Qed.

Lemma mangle_mangled (p : string) : mangled p (hy_symbol_mangle p).
Proof.
  unfold mangled, hy_symbol_mangle.
  eexists; eexists; eexists.
  split; [apply earmuffs_step|].
  split; [apply hyphens_step|].
  split; [apply question_step | apply bang_step].
Qed.

Lemma mangled_functional (p a b : string) :
  mangled p a -> mangled p b -> a = b.
Proof.
  intros (a1 & a2 & a3 & A1 & A2 & A3 & A4) (b1 & b2 & b3 & B1 & B2 & B3 & B4).
  pose proof (earmuffs_functional _ _ _ A1 B1); subst b1.
  pose proof (hyphens_functional _ _ _ A2 B2); subst b2.
  pose proof (question_functional _ _ _ A3 B3); subst b3.
  exact (bang_functional _ _ _ A4 B4).
Qed.

End MangleFacts.

(** ** The classifier *)

Section ClassifierFacts.

Context {host : Host}.

Import Spec PyFacts.

Lemma fraction_of_iff (obj : string) (l r : Z) :
  fraction_of obj l r <->
  Py.contains "/" obj = true
  /\ exists lhs rhs, Py.split "/" obj = [lhs; rhs]
                     /\ integer_of lhs = Some l /\ integer_of rhs = Some r.
Proof.
  split.
  - intros (lhs & rhs & E & Nl & Nr & Il & Ir). subst obj. split.
    + apply contains_iff. now exists lhs, rhs.
    + exists lhs, rhs. repeat split; try assumption.
      change (lhs ++ "/" ++ rhs) with (lhs ++ String "/" rhs).
      rewrite split_at by assumption. now rewrite split_without.
  - intros (_ & lhs & rhs & S & Il & Ir).
    pose proof (split_segments "/" obj) as (E & F & _). rewrite S in E, F.
    inversion F as [|x y Nl F']; subst x y.
    inversion F' as [|x y Nr _]; subst x y.
    exists lhs, rhs. repeat split; assumption.
Qed.

(** The second attempt of [symbol_like], on its own. *)
Lemma fraction_attempt (obj : string) :
  let attempt :=
    if Py.contains "/" obj then
      match Py.split "/" obj with
      | [lhs; rhs] =>
          match integer_of lhs, integer_of rhs with
          | Some l, Some r =>
              Some (HyExpression [HySymbol "fraction"; HyInteger l; HyInteger r])
          | _, _ => None
          end
      | _ => None
      end
    else None in
  (exists l r, fraction_of obj l r
               /\ attempt = Some (HyExpression
                                    [HySymbol "fraction"; HyInteger l; HyInteger r]))
  \/ ((forall l r, ~ fraction_of obj l r) /\ attempt = None).
Proof.
  cbv zeta.
  destruct (Py.contains "/" obj) eqn:C.
  2:{ right. split; [|reflexivity]. intros l r F.
      apply fraction_of_iff in F as [C' _]. congruence. }
  destruct (Py.split "/" obj) as [|lhs [|rhs [|x y]]] eqn:S;
    try (right; split; [|reflexivity]; intros l r F;
         apply fraction_of_iff in F as (_ & a & b & S' & _); congruence).
  destruct (integer_of lhs) as [l|] eqn:Il.
  - destruct (integer_of rhs) as [r|] eqn:Ir.
    + left. exists l, r. split; [|reflexivity].
      apply fraction_of_iff. split; [assumption|]. now exists lhs, rhs.
    + right. split; [|reflexivity]. intros l' r' F.
      apply fraction_of_iff in F as (_ & a & b & S' & Ia & Ib).
      rewrite S in S'. injection S' as <- <-. congruence.
  - right. split; [|reflexivity]. intros l' r' F.
    apply fraction_of_iff in F as (_ & a & b & S' & Ia & Ib).
    rewrite S in S'. injection S' as <- <-. congruence.
Qed.

Lemma keyword_like_iff (obj : string) :
  Py.startswith obj ":" && negb (Py.contains "." obj) = true <-> keyword_like obj.
Proof.
  unfold keyword_like. rewrite andb_true_iff, negb_true_iff.
  now rewrite startswith_iff, contains_false_iff.
Qed.

(** [symbol_like] returns the outcome of the first of the steps 1 to 5
    that succeeds, and [None] when none does. *)
Lemma symbol_like_spec (p0 : Token) :
  (exists val, symbol_like (value p0) = Some val
               /\ classified p0 (Ok val) /\ literal_like (value p0))
  \/ (symbol_like (value p0) = None /\ ~ literal_like (value p0)).
Proof.
  unfold symbol_like. set (obj := value p0).
  destruct (integer_of obj) as [z|] eqn:I.
  { left. eexists. split; [reflexivity|]. split; [now apply is_integer|].
    left. fold obj. congruence. }
  destruct (fraction_attempt obj) as [(l & r & F & ->)|[NF ->]].
  { left. eexists. split; [reflexivity|]. split; [now apply is_fraction|].
    right; left. now exists l, r. }
  destruct (float_of obj) as [f|] eqn:Fl.
  { left. eexists. split; [reflexivity|]. split; [now apply is_float|].
    right; right; left. fold obj. congruence. }
  destruct (String.eqb_spec obj "j") as [J|J]; simpl negb; cbv iota.
  - destruct (Py.startswith obj ":" && negb (Py.contains "." obj)) eqn:K.
    + left. eexists. split; [reflexivity|]. apply keyword_like_iff in K.
      split; [apply is_keyword; auto|]. now repeat right.
    + right. split; [reflexivity|].
      intros [A|[(l & r & A)|[A|[[A _]|A]]]]; try congruence.
      * now apply NF in A.
      * apply keyword_like_iff in A. congruence.
  - destruct (complex_of obj) as [c|] eqn:Cx.
    { left. eexists. split; [reflexivity|]. split; [now apply is_complex|].
      right; right; right; left. split; [assumption|]. fold obj. congruence. }
    destruct (Py.startswith obj ":" && negb (Py.contains "." obj)) eqn:K.
    + left. eexists. split; [reflexivity|]. apply keyword_like_iff in K.
      split; [apply is_keyword; auto|]. now repeat right.
    + right. split; [reflexivity|].
      intros [A|[(l & r & A)|[A|[[_ A]|A]]]]; try congruence.
      * now apply NF in A.
      * apply keyword_like_iff in A. congruence.
Qed.

Lemma symbol_like_literal (obj : string) :
  symbol_like obj <> None <-> literal_like obj.
Proof.
  pose (p0 := {| name := IDENTIFIER; value := obj;
                 source_pos := {| idx := 0; lineno := 0; colno := 0 |} |}).
  destruct (symbol_like_spec p0) as [(val & E & _ & L)|[E N]]; simpl in *.
  - split; [intros _; assumption | congruence].
  - split; [congruence | contradiction].
Qed.

(** The guard of [t_identifier] on a dotted text. *)
Lemma dotted_guard (obj : string) :
  Py.contains "." obj
  && match Py.split1 "." obj with
     | first :: _ => match symbol_like first with Some _ => true | None => false end
     | [] => false
     end = true
  <-> dotted_literal obj.
Proof.
  split.
  - rewrite andb_true_iff. intros [C G]. apply contains_iff in C.
    destruct (occurs_first _ _ C) as (a & b & E & N).
    rewrite E, split1_at in G by assumption.
    exists a, b. repeat split; try assumption.
    apply symbol_like_literal. destruct (symbol_like a); congruence.
  - intros (first & rest & E & N & L). subst obj.
    change (first ++ "." ++ rest) with (first ++ String "." rest).
    rewrite split1_at by assumption.
    apply symbol_like_literal in L.
    replace (Py.contains "." (first ++ String "." rest)) with true.
    + destruct (symbol_like first); [reflexivity | congruence].
    + symmetry. apply contains_iff. now exists first, rest.
Qed.

(** [t_identifier] runs the classification, then stamps the span of the
    token on its outcome. *)
Lemma t_identifier_spec (p0 : Token) :
  exists outcome,
    classified p0 outcome /\ t_identifier p0 = set_boundaries p0 None outcome.
Proof.
  unfold t_identifier.
  destruct (symbol_like_spec p0) as [(val & -> & Cl & _)|[-> N]].
  - now exists (Ok val).
  - destruct (Py.contains "." (value p0) && _) eqn:G.
    + eexists. split; [|reflexivity]. apply dotted_guard in G.
      now apply is_dotted_literal.
    + eexists. split; [|reflexivity]. apply is_symbol; try assumption.
      * intros D. apply dotted_guard in D. congruence.
      * apply split_segments.
Qed.

Lemma classified_functional (p0 : Token) (a b : result HyObject) :
  classified p0 a -> classified p0 b -> a = b.
Proof.
  assert (L1 : forall z, integer_of (value p0) = Some z -> literal_like (value p0))
    by (intros z E; left; congruence).
  assert (L2 : forall l r, fraction_of (value p0) l r -> literal_like (value p0))
    by (intros l r E; right; left; eauto).
  assert (L3 : forall f, float_of (value p0) = Some f -> literal_like (value p0))
    by (intros f E; right; right; left; congruence).
  assert (L4 : forall c, value p0 <> "j" -> complex_of (value p0) = Some c ->
                         literal_like (value p0))
    by (intros c J E; right; right; right; left; split; congruence).
  assert (L5 : keyword_like (value p0) -> literal_like (value p0))
    by (intros E; now repeat right).
  assert (FF : forall l r l' r', fraction_of (value p0) l r ->
                                 fraction_of (value p0) l' r' -> l = l' /\ r = r').
  { intros l r l' r' A B. apply fraction_of_iff in A as (_ & a1 & a2 & Sa & A1 & A2).
    apply fraction_of_iff in B as (_ & b1 & b2 & Sb & B1 & B2).
    rewrite Sa in Sb. injection Sb as <- <-. split; congruence. }
  intros A B; destruct A, B;
    try reflexivity; try congruence;
    try (exfalso; eauto; fail);
    try match goal with
        | N : forall l r, ~ fraction_of _ l r, F : fraction_of _ _ _ |- _ =>
            exfalso; exact (N _ _ F)
        | N : ~ literal_like _ |- _ => exfalso; apply N; eauto; fail
        | N : ~ dotted_literal _, D : dotted_literal _ |- _ => contradiction
        end.
  - match goal with
    | |- Ok (HyExpression [_; HyInteger ?a; HyInteger ?b])
         = Ok (HyExpression [_; HyInteger ?c; HyInteger ?d]) =>
        match goal with
        | F1 : fraction_of _ a b, F2 : fraction_of _ c d |- _ =>
            destruct (FF _ _ _ _ F1 F2) as [E1 E2]; rewrite E1, E2; reflexivity
        end
    end.
  - match goal with J : _ \/ _ |- _ => destruct J; congruence end.
  - match goal with J : _ \/ _ |- _ => destruct J; congruence end.
  - match goal with
    | S1 : segments _ _ ?x, S2 : segments _ _ ?y |- _ =>
        apply segments_unique in S1; apply segments_unique in S2; congruence
    end.
Qed.

End ClassifierFacts.

(** ** The identifier terminal *)

Section IdentifierFacts.

Context {host : Host}.

Import Spec PyFacts.

(** C1 (amended): [t_identifier] tries the interpretations in their
    order and returns the first success: an integer; a fraction
    expression for exactly one "/" between two integers; a float; a
    complex, unless the text is "j"; a keyword for a leading ":" and no
    "."; then, if the text has a "." whose left side succeeds at one of
    those steps, the malformed-input error, and otherwise the symbol of
    the mangled segments joined by ".".  The outcome is the only one the
    steps allow, and it carries the span of the token. *)
Theorem identifier_classification (p0 : Token) :
  exists outcome,
    classified p0 outcome
    /\ (forall other, classified p0 other -> other = outcome)
    /\ t_identifier p0 = set_boundaries p0 None outcome.
Proof.
  destruct (t_identifier_spec p0) as (outcome & C & E).
  exists outcome. repeat split; try assumption.
  intros other C'. exact (classified_functional p0 other outcome C' C).
Qed.

(** C4 (amended): when the text of an identifier token has a "." whose
    left side succeeds at one of the steps 1 to 5, and the text itself
    succeeds at none of them, [t_identifier] raises the malformed-input
    error at the position of the token. *)
Theorem dotted_literal_rejected (p0 : Token) :
  dotted_literal (value p0) ->
  ~ literal_like (value p0) ->
  t_identifier p0
  = Raise (LexException not_a_name
             (lineno (source_pos p0)) (colno (source_pos p0))).
Proof.
  intros D N. unfold t_identifier.
  destruct (symbol_like_spec p0) as [(val & _ & _ & L)|[-> _]]; [contradiction|].
  apply dotted_guard in D. rewrite D. reflexivity.
Qed.

(** When the text itself is a literal, the guard is never reached. *)
Lemma literal_accepted (p0 : Token) :
  literal_like (value p0) ->
  exists val, symbol_like (value p0) = Some val
              /\ t_identifier p0 = set_boundaries p0 None (Ok val).
Proof.
  intros L. unfold t_identifier.
  destruct (symbol_like_spec p0) as [(val & E & _ & _)|[_ N]]; [|contradiction].
  exists val. now rewrite E.
Qed.

Lemma mangled_each (segs : list string) :
  Forall2 mangled segs (map hy_symbol_mangle segs).
Proof.
  induction segs as [|seg segs IH]; simpl; constructor;
    [apply mangle_mangled | assumption].
Qed.

(** C5: [hy_symbol_mangle] is the four rules in their order, each on the
    output of the previous one, and nothing else; and the symbol that
    [t_identifier] makes of a text that is no literal is named by the
    segments of the text between its dots, each mangled on its own,
    joined by "." again. *)
Theorem mangle_four_rules :
  (forall p out, mangled p out <-> out = hy_symbol_mangle p)
  /\ (forall p0,
        exists segs,
          segments "." (value p0) segs
          /\ Forall2 mangled segs (map hy_symbol_mangle segs)
          /\ (t_identifier p0
              = set_boundaries p0 None
                  (Ok (HySymbol (Py.join "." (map hy_symbol_mangle segs))))
              \/ literal_like (value p0)
              \/ dotted_literal (value p0))).
Proof.
  split.
  - intros p out. split.
    + intros M. exact (mangled_functional p out _ M (mangle_mangled p)).
    + intros ->. apply mangle_mangled.
  - intros p0. exists (Py.split "." (value p0)).
    split; [apply split_segments|]. split; [apply mangled_each|].
    unfold t_identifier.
    destruct (symbol_like_spec p0) as [(val & _ & _ & L)|[-> N]]; [now right; left|].
    destruct (Py.contains "." (value p0) && _) eqn:G.
    + right; right. now apply dotted_guard.
    + now left.
Qed.

End IdentifierFacts.

(** ** Parenthesized forms *)

Section ParenFacts.

Context {host : Host}.

Import Spec.

Local Open Scope list_scope.

(** [cont[-2]] of contents that end in [sep; z]. *)
Lemma item_before_last (init : list HyObject) (sep z : HyObject) :
  Py.item (init ++ [sep; z]) (-2) = Some sep.
Proof.
  unfold Py.item. rewrite length_app. simpl List.length.
  replace (-2 <? 0) with true by reflexivity.
  replace (Z.of_nat (List.length init + 2) + -2) with (Z.of_nat (List.length init)) by lia.
  replace (Z.of_nat (List.length init) <? 0) with false by (symmetry; apply Z.ltb_ge; lia).
  replace (Z.of_nat (List.length init + 2) <=? Z.of_nat (List.length init))
    with false by (symmetry; apply Z.leb_gt; lia).
  simpl orb. cbv iota. rewrite Nat2Z.id.
  rewrite nth_error_app2 by lia. now rewrite Nat.sub_diag.
Qed.

(** [cont[:-2]] *)
Lemma slice_init_items (init : list HyObject) (sep z : HyObject) :
  Py.lslice (init ++ [sep; z]) None (Some (-2)) = init.
Proof.
  unfold Py.lslice, Py.lower_bound, Py.upper_bound, Py.clip.
  rewrite length_app. simpl List.length.
  replace (-2 <? 0) with true by reflexivity.
  rewrite Z.max_r by lia.
  replace (Z.to_nat (Z.of_nat (List.length init + 2) + -2 - 0))
    with (List.length init) by lia.
  simpl skipn. rewrite firstn_app, firstn_all, Nat.sub_diag. simpl.
  apply app_nil_r.
Qed.

(** [cont[-1:]] *)
Lemma slice_last_item (init : list HyObject) (sep z : HyObject) :
  Py.lslice (init ++ [sep; z]) (Some (-1)) None = [z].
Proof.
  unfold Py.lslice, Py.lower_bound, Py.upper_bound, Py.clip.
  rewrite length_app. simpl List.length.
  replace (-1 <? 0) with true by reflexivity.
  rewrite Z.max_r by lia.
  replace (Z.to_nat (Z.of_nat (List.length init + 2) + -1))
    with (List.length init + 1)%nat by lia.
  replace (Z.to_nat _) with 1%nat by lia.
  replace (init ++ [sep; z]) with ((init ++ [sep]) ++ [z])
    by (now rewrite <- app_assoc).
  rewrite skipn_app.
  replace (List.length init + 1)%nat with (List.length (init ++ [sep]))
    by (rewrite length_app; reflexivity).
  rewrite skipn_all, Nat.sub_diag. reflexivity.
Qed.

(** [cont[1:]] *)
Lemma slice_rest (cont : list HyObject) :
  Py.lslice cont (Some 1) None = tl cont.
Proof.
  unfold Py.lslice, Py.lower_bound, Py.upper_bound, Py.clip.
  replace (1 <? 0) with false by reflexivity.
  destruct cont as [|c0 rest]; [reflexivity|].
  simpl List.length. rewrite Z.min_l by lia.
  replace (Z.to_nat 1) with 1%nat by reflexivity. simpl skipn.
  replace (Z.to_nat _) with (List.length rest) by lia.
  apply firstn_all.
Qed.

(** Contents of three items or more with a last-but-one item. *)
Lemma ends_in_two (cont : list HyObject) (x : HyObject) :
  3 <= len cont -> Py.item cont (-2) = Some x ->
  exists init z, cont = init ++ [x; z] /\ init <> [].
Proof.
  intros L I.
  destruct (rev cont) as [|z [|y rc]] eqn:R.
  - apply (f_equal (@rev _)) in R. rewrite rev_involutive in R. subst.
    unfold len in L. simpl in L. lia.
  - apply (f_equal (@rev _)) in R. rewrite rev_involutive in R. subst.
    unfold len in L. simpl in L. lia.
  - apply (f_equal (@rev _)) in R. rewrite rev_involutive in R. simpl in R.
    rewrite <- app_assoc in R. simpl in R. subst cont.
    rewrite item_before_last in I. injection I as ->.
    exists (rev rc), z. split; [reflexivity|].
    intros E. rewrite E in L. unfold len in L. simpl in L. lia.
Qed.

Lemma reject_dots_ok (items : list HyObject) :
  existsb is_dot items = false -> reject_dots_in items = Ok tt.
Proof.
  induction items as [|tok rest IH]; simpl; [reflexivity|].
  rewrite orb_false_iff. intros [-> D]. auto.
Qed.

Lemma reject_dots_raise (items : list HyObject) :
  existsb is_dot items = true -> Forall spanned items ->
  exists line column,
    reject_dots_in items = Raise (LexException "Malformed dotted list" line column).
Proof.
  induction items as [|tok rest IH]; simpl; [discriminate|].
  intros D F. inversion F as [|x y Sx Fy]; subst.
  destruct (is_dot tok) eqn:T.
  - unfold spanned in Sx. destruct (span_of tok) as [b|]; [|contradiction].
    now exists (start_line b), (start_column b).
  - simpl in D. auto.
Qed.

Lemma reject_spurious_two (a b : list HyObject) :
  reject_spurious_dots [a; b] = reject_dots_in (a ++ b).
Proof.
  simpl. induction a as [|tok rest IH]; simpl.
  - now destruct (reject_dots_in b) as [[]|e].
  - destruct (is_dot tok); [now destruct (span_of tok)|]. assumption.
Qed.

Lemma reject_spurious_one (a : list HyObject) :
  reject_spurious_dots [a] = reject_dots_in a.
Proof. simpl. now destruct (reject_dots_in a) as [[]|e]. Qed.

Lemma set_boundaries_form (l r : Token) (o : HyObject) :
  set_boundaries l (Some r) (Ok o) = Ok (with_span o (form_span l r)).
Proof. reflexivity. Qed.

(** The body of [paren], below the decorator. *)
Lemma paren_unfold (p0 : Token) (cont : list HyObject) (p2 : Token) :
  paren p0 cont p2
  = set_boundaries p0 (Some p2)
      (if (3 <=? len cont)
          && match Py.item cont (-2) with
             | Some x => is_dot x
             | None => false
             end
       then
         reject_spurious_dots
           [Py.lslice cont None (Some (-2)); Py.lslice cont (Some (-1)) None] ;;;
         if len cont =? 3 then
           match cont with
           | [c0; _; c2] => Ok (HyCons c0 c2)
           | _ => Raise (PythonError "IndexError")
           end
         else
           match cont with
           | c0 :: cont_1 =>
               cdr <- paren p0 cont_1 p2 ;;
               Ok (HyCons c0 cdr)
           | [] => Raise (PythonError "IndexError")
           end
       else
         reject_spurious_dots [Py.lslice cont (Some 1) None] ;;;
         Ok (HyExpression cont)).
Proof. destruct cont; reflexivity. Qed.

(** The test of [paren] for a dotted list. *)
Lemma dotted_test (cont : list HyObject) :
  (3 <=? len cont)
  && match Py.item cont (-2) with
     | Some x => is_dot x
     | None => false
     end = true
  <-> dotted_tail cont.
Proof.
  split.
  - rewrite andb_true_iff, Z.leb_le. intros [L I].
    destruct (Py.item cont (-2)) as [x|] eqn:E; [|discriminate].
    destruct (ends_in_two cont x L E) as (init & z & -> & N).
    now exists init, x, z.
  - intros (init & sep & z & -> & N & D).
    rewrite item_before_last, D, andb_true_r. apply Z.leb_le.
    destruct init; [contradiction|].
    unfold len. rewrite length_app. simpl List.length. lia.
Qed.

(** A dotted list without any other dot: the nested cons cells. *)
Lemma paren_dotted (p0 p2 : Token) (init : list HyObject) (sep z : HyObject) :
  init <> [] -> is_dot sep = true ->
  existsb is_dot (init ++ [z]) = false ->
  paren p0 (init ++ [sep; z]) p2 = Ok (dotted_list (form_span p0 p2) init z).
Proof.
  intros N D. induction init as [|a rest IH]; [contradiction|]. intros F.
  rewrite paren_unfold.
  assert (T : dotted_tail ((a :: rest) ++ [sep; z]))
    by (exists (a :: rest), sep, z; auto).
  apply dotted_test in T. rewrite T.
  rewrite slice_init_items, slice_last_item, reject_spurious_two.
  rewrite (reject_dots_ok _ F). cbn [bind].
  destruct rest as [|b rest].
  - reflexivity.
  - replace (len ((a :: b :: rest) ++ [sep; z]) =? 3) with false.
    2:{ symmetry. apply Z.eqb_neq. unfold len. rewrite length_app.
        simpl List.length. lia. }
    cbn [app]. cbn [app] in IH. rewrite IH; [reflexivity | discriminate |].
    simpl in F. apply orb_false_iff in F as [_ F]. exact F.
Qed.

(** A dotted list with another dot, the first item included: malformed. *)
Lemma paren_dotted_spurious (p0 p2 : Token) (init : list HyObject) (sep z : HyObject) :
  init <> [] -> is_dot sep = true ->
  Forall spanned (init ++ [z]) ->
  existsb is_dot (init ++ [z]) = true ->
  exists line column,
    paren p0 (init ++ [sep; z]) p2
    = Raise (LexException "Malformed dotted list" line column).
Proof.
  intros N D S F. rewrite paren_unfold.
  assert (T : dotted_tail (init ++ [sep; z])) by (exists init, sep, z; auto).
  apply dotted_test in T. rewrite T.
  rewrite slice_init_items, slice_last_item, reject_spurious_two.
  destruct (reject_dots_raise _ F S) as (line & column & ->).
  now exists line, column.
Qed.

(** No dotted tail: an expression, unless a dot follows the first item. *)
Lemma paren_plain (p0 p2 : Token) (cont : list HyObject) :
  ~ dotted_tail cont ->
  existsb is_dot (tl cont) = false ->
  paren p0 cont p2 = Ok (with_span (HyExpression cont) (form_span p0 p2)).
Proof.
  intros N F. rewrite paren_unfold.
  destruct ((3 <=? len cont) && _) eqn:T.
  - apply dotted_test in T. contradiction.
  - rewrite reject_spurious_one, slice_rest, (reject_dots_ok _ F). reflexivity.
Qed.

Lemma paren_plain_spurious (p0 p2 : Token) (cont : list HyObject) :
  ~ dotted_tail cont ->
  Forall spanned cont ->
  existsb is_dot (tl cont) = true ->
  exists line column,
    paren p0 cont p2 = Raise (LexException "Malformed dotted list" line column).
Proof.
  intros N S F. rewrite paren_unfold.
  destruct ((3 <=? len cont) && _) eqn:T.
  - apply dotted_test in T. contradiction.
  - rewrite reject_spurious_one, slice_rest.
    assert (S' : Forall spanned (tl cont))
      by (destruct cont; [constructor | now inversion S]).
    destruct (reject_dots_raise _ F S') as (line & column & ->).
    now exists line, column.
Qed.

End ParenFacts.

(** ** Invariants of the values of a derivation *)

Scheme term_tree_mut := Induction for term_tree Sort Prop
  with contents_tree_mut := Induction for contents_tree Sort Prop
  with discarded_tree_mut := Induction for discarded_tree Sort Prop.

Combined Scheme tree_mutind
  from term_tree_mut, contents_tree_mut, discarded_tree_mut.

Section ValueFacts.

Context {host : Host}.

Import Spec PyFacts.

Local Open Scope list_scope.

Lemma bind_ok {A B} (r : result A) (k : A -> result B) (b : B) :
  bind r k = Ok b -> exists a, r = Ok a /\ k a = Ok b.
Proof. destruct r as [a|e]; simpl; [eauto | discriminate]. Qed.

(** Undo the binds of a hypothesis that says an action returned. *)
Ltac returned H :=
  repeat match type of H with
         | bind _ _ = Ok _ =>
             let a := fresh "a" in
             let E := fresh "E" in
             apply bind_ok in H as (a & E & H)
         | Ok _ = Ok _ => injection H as H
         end.

Lemma with_span_spanned (o : HyObject) (sp : boundaries) : spanned (with_span o sp).
Proof. destruct o; discriminate. Qed.

Lemma set_boundaries_spanned (l : Token) (r : option Token)
    (ret : result HyObject) (v : HyObject) :
  set_boundaries l r ret = Ok v -> spanned v.
Proof.
  unfold set_boundaries. intros E. returned E. subst v. apply with_span_spanned.
Qed.

Lemma set_quote_boundaries_spanned (l : Token) (last : HyObject)
    (ret : result HyObject) (v : HyObject) :
  set_quote_boundaries l last ret = Ok v -> spanned v.
Proof.
  unfold set_quote_boundaries. intros E. returned E.
  destruct (span_of last); [|discriminate]. returned E. subst v.
  apply with_span_spanned.
Qed.

Lemma paren_spanned (l r : Token) (cont : list HyObject) (v : HyObject) :
  paren l cont r = Ok v -> spanned v.
Proof. rewrite paren_unfold. apply set_boundaries_spanned. Qed.

(** Every term of a derivation comes out with its span set. *)
Lemma eval_spanned :
  (forall t v, eval_term t = Ok v -> spanned v)
  /\ (forall c items, eval_contents c = Ok items -> Forall spanned items)
  /\ (forall d : discarded_tree, True).
Proof.
  apply tree_mutind; try (intros; exact I); simpl;
    unfold term, empty_paren, t_set, empty_set, t_dict, empty_dict, t_list,
      t_empty_list, t_string, t_partial_string, t_bracket_string, t_identifier,
      term_discard, term_quote, term_quasiquote, term_unquote,
      term_unquote_splice, term_hashstars, hash_other,
      list_contents, list_contents_single, list_contents_empty;
    intros;
    repeat match goal with
           | H : bind _ _ = Ok _ |- _ =>
               let a := fresh "a" in
               let E := fresh "E" in
               apply bind_ok in H as (a & E & H)
           | H : Ok _ = Ok _ |- _ => injection H as H
           end;
    subst;
    try discriminate;
    eauto using set_boundaries_spanned, set_quote_boundaries_spanned,
      paren_spanned, Forall_cons, Forall_nil.
Qed.

Lemma with_span_names (o : HyObject) (sp : boundaries) :
  symbol_names (with_span o sp) = symbol_names o.
Proof. now destruct o. Qed.

Lemma set_boundaries_names (l : Token) (r : option Token)
    (ret : result HyObject) (v : HyObject) :
  set_boundaries l r ret = Ok v ->
  exists o, ret = Ok o /\ symbol_names v = symbol_names o.
Proof.
  unfold set_boundaries. intros E. returned E. subst v.
  eexists. split; [eassumption | apply with_span_names].
Qed.

Lemma set_quote_boundaries_names (l : Token) (last : HyObject)
    (ret : result HyObject) (v : HyObject) :
  set_quote_boundaries l last ret = Ok v ->
  exists o, ret = Ok o /\ symbol_names v = symbol_names o.
Proof.
  unfold set_quote_boundaries. intros E. returned E.
  destruct (span_of last); [|discriminate]. returned E. subst v.
  eexists. split; [eassumption | apply with_span_names].
Qed.

(** [paren] makes no symbol of its own. *)
Lemma paren_names (l r : Token) (cont : list HyObject) (v : HyObject) :
  paren l cont r = Ok v ->
  incl (symbol_names v) (flat_map symbol_names cont).
Proof.
  revert v. induction cont as [|c0 cont_1 IH]; intros v E;
    rewrite paren_unfold in E;
    apply set_boundaries_names in E as (o & E & ->).
  - destruct ((3 <=? len []) && _); returned E; [discriminate|].
    subst o. apply incl_refl.
  - destruct ((3 <=? len (c0 :: cont_1)) && _).
    + returned E. destruct (len (c0 :: cont_1) =? 3).
      * destruct cont_1 as [|c1 [|c2 [|c3 rest]]]; try discriminate.
        returned E. subst o. simpl. rewrite app_nil_r.
        apply incl_app; [apply incl_appl, incl_refl|].
        apply incl_appr, incl_appr, incl_refl.
      * returned E. subst o. simpl.
        apply incl_app; [apply incl_appl, incl_refl|].
        apply incl_appr. eauto.
    + returned E. subst o. apply incl_refl.
Qed.

Lemma Forall_incl {A} (P : A -> Prop) (a b : list A) :
  incl a b -> Forall P b -> Forall P a.
Proof. rewrite !Forall_forall. unfold incl. auto. Qed.

End ValueFacts.

(** ** Hyphens in the names of symbols *)

Section HyphenFacts.

Context {host : Host}.

Import Spec PyFacts.

Local Open Scope list_scope.

Lemma not_contains_tidy (s : string) : Py.contains "-" s = false -> tidy s.
Proof. intros C. left. now apply contains_false_iff. Qed.

Lemma hyphens_tidy (s s' : string) : hyphens s s' -> tidy s'.
Proof.
  intros [[_ ->]|[N ->]].
  - left. rewrite <- replace_underscored. apply replace_clean.
  - destruct (string_dec s "-") as [E|D]; [now right|].
    left. intros O. apply N. now split.
Qed.

Lemma tidy_init (r : string) (c : ascii) :
  c <> "-"%char -> tidy (r ++ String c "") -> ~ occurs "-" r.
Proof.
  intros Hc [N|E].
  - intros O. apply N. apply occurs_app. now left.
  - destruct r as [|x [|y r]]; simpl in E; try discriminate.
    injection E as E. congruence.
Qed.

Lemma question_tidy (s s' : string) : tidy s -> question s s' -> tidy s'.
Proof.
  intros T [[_ (r & -> & ->)]|[_ ->]]; [|assumption].
  left. apply tidy_init in T; [|discriminate].
  intros O. apply occurs_app in O as [O|O]; [|contradiction].
  apply contains_iff in O. discriminate.
Qed.

Lemma bang_tidy (s s' : string) : tidy s -> bang s s' -> tidy s'.
Proof.
  intros T [[_ (r & -> & ->)]|[_ ->]]; [|assumption].
  left. apply tidy_init in T; [|discriminate].
  intros O. apply occurs_app in O as [O|O]; [contradiction|].
  apply contains_iff in O. discriminate.
Qed.

(** The output of the mangler has no hyphen, unless it is the hyphen. *)
Lemma mangle_hyphen_free (p : string) : hyphen_free (hy_symbol_mangle p).
Proof.
  destruct (mangle_mangled p) as (s1 & s2 & s3 & _ & R2 & R3 & R4).
  apply hyphens_tidy in R2. apply (question_tidy _ _ R2) in R3.
  apply (bang_tidy _ _ R3) in R4. intros O. now destruct R4.
Qed.

Lemma fixed_name (s : string) :
  Py.contains "-" s = false -> hyphen_free_segments s.
Proof.
  intros C. exists [s]. split; [reflexivity|]. constructor; [|constructor].
  intros O. apply contains_iff in O. congruence.
Qed.

Lemma mangled_name (segs : list string) :
  hyphen_free_segments (Py.join "." (map hy_symbol_mangle segs)).
Proof.
  exists (map hy_symbol_mangle segs). split; [reflexivity|].
  induction segs; simpl; constructor; [apply mangle_hyphen_free | assumption].
Qed.

Lemma identifier_names (p0 : Token) (v : HyObject) :
  t_identifier p0 = Ok v -> Forall hyphen_free_segments (symbol_names v).
Proof.
  destruct (t_identifier_spec p0) as (outcome & C & ->). intros E.
  apply set_boundaries_names in E as (o & -> & ->).
  inversion C; subst; simpl; repeat constructor.
  - now apply fixed_name.
  - apply mangled_name.
Qed.

Lemma quoted_names (q : Token) (p1 v : HyObject) (s : string) :
  Py.contains "-" s = false ->
  set_quote_boundaries q p1 (Ok (HyExpression [HySymbol s; p1])) = Ok v ->
  Forall hyphen_free_segments (symbol_names p1) ->
  Forall hyphen_free_segments (symbol_names v).
Proof.
  intros C E F. apply set_quote_boundaries_names in E as (o & E & ->).
  injection E as <-. simpl. rewrite app_nil_r.
  constructor; [now apply fixed_name | assumption].
Qed.

Lemma sequence_names (l : Token) (r : option Token) (k : sequence)
    (items : list HyObject) (v : HyObject) :
  set_boundaries l r (Ok (HySeq k items None)) = Ok v ->
  Forall hyphen_free_segments (flat_map symbol_names items) ->
  Forall hyphen_free_segments (symbol_names v).
Proof.
  intros E F. apply set_boundaries_names in E as (o & E & ->).
  now injection E as <-.
Qed.

(** Every symbol of every value of a derivation is named by segments
    free of hyphens. *)
Lemma eval_names :
  (forall t v, eval_term t = Ok v ->
               Forall hyphen_free_segments (symbol_names v))
  /\ (forall c items, eval_contents c = Ok items ->
                      Forall hyphen_free_segments (flat_map symbol_names items))
  /\ (forall d : discarded_tree, True).
Proof.
  apply tree_mutind; try (intros; exact I); simpl; unfold term; intros;
    repeat match goal with
           | H : bind _ _ = Ok _ |- _ =>
               let a := fresh "a" in
               let E := fresh "E" in
               apply bind_ok in H as (a & E & H)
           | H : Ok _ = Ok _ |- _ => injection H as H
           end;
    subst.
  all: try (simpl; solve [eauto using identifier_names | constructor]).
  - eapply Forall_incl; [eapply paren_names; eassumption | eauto].
  - unfold t_string in *.
    match goal with B : set_boundaries _ _ _ = Ok _ |- _ =>
      apply set_boundaries_names in B as (o & Ho & ->) end.
    destruct (eval_literal _) as [[s|s]|]; try discriminate;
      injection Ho as <-; constructor.
  - discriminate.
  - unfold t_bracket_string in *.
    match goal with B : set_boundaries _ _ _ = Ok _ |- _ =>
      apply set_boundaries_names in B as (o & Ho & ->) end.
    destruct (bracket_string_groups _) as [[delim content]|]; try discriminate;
      injection Ho as <-; constructor.
  - eapply quoted_names; [| eassumption | eauto]. reflexivity.
  - eapply quoted_names; [| eassumption | eauto]. reflexivity.
  - eapply quoted_names; [| eassumption | eauto]. reflexivity.
  - eapply quoted_names; [| eassumption | eauto]. reflexivity.
  - unfold term_hashstars in *.
    match goal with B : set_quote_boundaries _ _ _ = Ok _ |- _ =>
      apply set_quote_boundaries_names in B as (o & Ho & ->) end.
    apply bind_ok in Ho as (sym & S & Ho). injection Ho as <-.
    simpl. rewrite app_nil_r. constructor; [|eauto].
    destruct (_ =? 1); [injection S as <-; now apply fixed_name|].
    destruct (_ =? 2); [injection S as <-; now apply fixed_name|discriminate].
  - unfold hash_other in *.
    match goal with B : set_quote_boundaries _ _ _ = Ok _ |- _ =>
      apply set_quote_boundaries_names in B as (o & Ho & ->) end.
    injection Ho as <-. simpl. rewrite app_nil_r.
    constructor; [now apply fixed_name | eauto].
  - unfold list_contents. simpl. apply Forall_app. split; eauto.
  - unfold list_contents_single. simpl. rewrite app_nil_r. eauto.
Qed.

End HyphenFacts.

(** ** The grammar is unambiguous *)

Section GrammarFacts.

Local Open Scope list_scope.

Lemma is_a_name (k : terminal) (t : Token) : is_a k t = true -> name t = k.
Proof.
  unfold is_a, terminal_eqb. destruct (name t), k; simpl; intros E;
    try reflexivity; discriminate.
Qed.

Ltac names :=
  repeat match goal with
         | H : _ && _ = true |- _ => apply andb_true_iff in H as [? ?]
         | H : is_a _ _ = true |- _ => apply is_a_name in H
         end.

Lemma term_head (t : term_tree) :
  typed_term t = true ->
  exists tok rest, yield_term t = tok :: rest /\ starts_term (name tok) = true.
Proof.
  destruct t; simpl; intros T; names; eexists; eexists;
    (split; [reflexivity|]);
    match goal with H : name _ = _ |- _ => now rewrite H end.
Qed.

Lemma contents_head (c : contents_tree) :
  typed_contents c = true ->
  exists tok rest, yield_contents c = tok :: rest /\ starts_term (name tok) = true.
Proof.
  destruct c; simpl; intros T; names.
  - destruct (term_head t) as (tok & rest & -> & S); [assumption|].
    now exists tok, (rest ++ yield_contents c).
  - now apply term_head.
  - eexists; eexists. split; [reflexivity|].
    match goal with H : name _ = _ |- _ => now rewrite H end.
Qed.

(** A term does not begin where contents stop. *)
Lemma term_not_closing (t : term_tree) (x r : list Token) :
  typed_term t = true -> closes r = true -> yield_term t ++ x <> r.
Proof.
  intros T C E. destruct (term_head t T) as (tok & rest & Y & S).
  rewrite Y in E. subst r. simpl in C. now rewrite S in C.
Qed.

Lemma contents_not_closing (c : contents_tree) (x r : list Token) :
  typed_contents c = true -> closes r = true -> yield_contents c ++ x <> r.
Proof.
  intros T C E. destruct (contents_head c T) as (tok & rest & Y & S).
  rewrite Y in E. subst r. simpl in C. now rewrite S in C.
Qed.

Lemma closes_cons (t : Token) (r : list Token) (k : terminal) :
  name t = k -> starts_term k = false -> closes (t :: r) = true.
Proof. intros E S. simpl. now rewrite E, S. Qed.


Ltac closing :=
  solve [ assumption
        | eapply closes_cons; [eassumption | reflexivity] ].

(** Use the statement on terms at a smaller index on the equation [E]. *)
Ltac by_terms IH E :=
  match type of E with
  | yield_term ?a ++ ?x = yield_term ?b ++ ?y =>
      let Ea := fresh "Ea" in
      let Er := fresh "Er" in
      destruct (proj1 (IH (List.length (yield_term a) + List.length (yield_term b))%nat
                          ltac:(lia))
                  a b x y ltac:(lia) ltac:(assumption) ltac:(assumption) E)
        as [Ea Er];
      first [subst b | subst a | idtac]
  end.

Ltac by_contents IH E :=
  match type of E with
  | yield_contents ?a ++ ?x = yield_contents ?b ++ ?y =>
      let Ea := fresh "Ea" in
      let Er := fresh "Er" in
      destruct (proj2 (IH (List.length (yield_contents a)
                           + List.length (yield_contents b))%nat
                          ltac:(lia))
                  a b x y ltac:(lia) ltac:(assumption) ltac:(assumption)
                  ltac:(closing) ltac:(closing) E)
        as [Ea Er];
      first [subst b | subst a | idtac]
  end.

Lemma term_step (n : nat) :
  (forall m, (m < n)%nat -> term_inj m /\ contents_inj m) -> term_inj n.
Proof.
  intros IH t1 t2 r1 r2 L T1 T2 E.
  destruct t1, t2; simpl in T1, T2, E, L; names;
    injection E as E0 E; match type of E0 with ?a = _ => subst a end;
    try congruence.
  all: rewrite ?length_app in L; simpl List.length in L.
  all: rewrite <- ?app_assoc in E; simpl in E.
  all: try (subst; split; reflexivity).
  all: try (by_contents IH E; injection Er as -> ->; subst; split; reflexivity).
  all: try (exfalso; eapply contents_not_closing; [| | exact E]; [assumption | closing]).
  all: try (exfalso; symmetry in E; eapply contents_not_closing; [| | exact E];
            [assumption | closing]).
  all: try (by_terms IH E; subst; split; reflexivity).
  by_terms IH E. by_terms IH Er. subst. split; reflexivity.
Qed.

Lemma term_length (t : term_tree) :
  typed_term t = true -> (1 <= List.length (yield_term t))%nat.
Proof.
  intros T. destruct (term_head t T) as (tok & rest & -> & _). simpl. lia.
Qed.

Lemma contents_length (c : contents_tree) :
  typed_contents c = true -> (1 <= List.length (yield_contents c))%nat.
Proof.
  intros T. destruct (contents_head c T) as (tok & rest & -> & _). simpl. lia.
Qed.

(** A term that starts with a DISCARD token is a discard. *)
Lemma discard_head (t : term_tree) (x rest : list Token) (d : Token) :
  typed_term t = true -> name d = DISCARD ->
  yield_term t ++ x = d :: rest ->
  exists u v, t = Discard d u v
              /\ typed_term u = true /\ typed_term v = true
              /\ rest = yield_term u ++ yield_term v ++ x.
Proof.
  intros T D E. destruct t; simpl in T, E; names;
    injection E as E0 E; match type of E0 with ?a = _ => subst a end;
    try congruence.
  eexists; eexists. repeat split; try eassumption.
  now rewrite <- app_assoc in E.
Qed.

Lemma not_discarded_step (n : nat) :
  (forall m, (m < n)%nat -> term_inj m /\ contents_inj m) ->
  (forall m, (m < n)%nat -> term_not_discarded m) ->
  term_not_discarded n.
Proof.
  intros IH IHd t d x r L Tt Td C E.
  destruct d as [dk t' tail|]; simpl in Td, E, L.
  - names. rewrite <- app_assoc in E.
    destruct (discard_head t x _ dk Tt ltac:(assumption) E)
      as (u & v & -> & Tu & Tv & E').
    simpl in L. rewrite ?length_app in L.
    pose proof (term_length v Tv). pose proof (term_length t' ltac:(assumption)).
    symmetry in E'. by_terms IH E'.
    eapply (IHd (List.length (yield_term v) + List.length (yield_discarded tail))%nat);
      [lia | | | | | exact Er]; try assumption; lia.
  - now apply (term_not_closing t x r).
Qed.

Ltac sizes :=
  repeat match goal with
         | H : typed_term ?t = true |- _ =>
             lazymatch goal with
             | _ : (1 <= List.length (yield_term t))%nat |- _ => fail
             | _ => pose proof (term_length t H)
             end
         | H : typed_contents ?c = true |- _ =>
             lazymatch goal with
             | _ : (1 <= List.length (yield_contents c))%nat |- _ => fail
             | _ => pose proof (contents_length c H)
             end
         end.

Ltac by_not_discarded IHd E :=
  match type of E with
  | yield_term ?v ++ ?x = yield_discarded ?d ++ ?r =>
      exfalso;
      eapply (IHd (List.length (yield_term v) + List.length (yield_discarded d))%nat);
      [lia | | | | | exact E]; solve [assumption | lia | closing]
  end.

Lemma discarded_step (n : nat) :
  (forall m, (m < n)%nat -> term_inj m /\ contents_inj m) ->
  (forall m, (m < n)%nat -> discarded_inj m) ->
  discarded_inj n.
Proof.
  intros IH IHd d1 d2 r1 r2 L T1 T2 C1 C2 E.
  destruct d1 as [k1 t1 tail1|], d2 as [k2 t2 tail2|];
    simpl in T1, T2, E, L; names.
  - injection E as E0 E. subst k2. rewrite <- !app_assoc in E.
    rewrite ?length_app in L. sizes. by_terms IH E.
    destruct (IHd (List.length (yield_discarded tail1)
                   + List.length (yield_discarded tail2))%nat ltac:(lia)
                tail1 tail2 r1 r2 ltac:(lia) ltac:(assumption) ltac:(assumption)
                C1 C2 Er) as [-> ->].
    split; reflexivity.
  - exfalso. subst r2. simpl in C2.
    match goal with H : name _ = DISCARD |- _ => rewrite H in C2 end. discriminate.
  - exfalso. subst r1. simpl in C1.
    match goal with H : name _ = DISCARD |- _ => rewrite H in C1 end. discriminate.
  - split; [reflexivity | assumption].
Qed.

Lemma contents_step (n : nat) :
  (forall m, (m < n)%nat -> term_inj m /\ contents_inj m) ->
  (forall m, (m < n)%nat -> term_not_discarded m) ->
  (forall m, (m < n)%nat -> discarded_inj m) ->
  term_inj n ->
  contents_inj n.
Proof.
  intros IH IHn IHd Tn c1 c2 r1 r2 L T1 T2 C1 C2 E.
  destruct c1 as [t1 c1|t1|k1 t1 tail1], c2 as [t2 c2|t2|k2 t2 tail2];
    simpl in T1, T2, E, L; names; rewrite ?length_app in L;
    rewrite <- ?app_assoc in E; sizes.
  - by_terms IH E. by_contents IH Er. subst. split; reflexivity.
  - by_terms IH E. exfalso.
    eapply contents_not_closing; [| | exact Er]; assumption.
  - simpl in E.
    destruct (discard_head t1 _ _ k2 ltac:(assumption) ltac:(assumption) E)
      as (u & v & -> & Tu & Tv & E').
    simpl in L. rewrite ?length_app in L. sizes.
    symmetry in E'. by_terms IH E'. by_not_discarded IHn Er.
  - by_terms IH E. exfalso. symmetry in Er.
    eapply contents_not_closing; [| | exact Er]; assumption.
  - destruct (Tn t1 t2 r1 r2 L ltac:(assumption) ltac:(assumption) E) as [-> ->].
    split; reflexivity.
  - simpl in E.
    destruct (discard_head t1 _ _ k2 ltac:(assumption) ltac:(assumption) E)
      as (u & v & -> & Tu & Tv & E').
    simpl in L. rewrite ?length_app in L. sizes.
    symmetry in E'. by_terms IH E'. by_not_discarded IHn Er.
  - simpl in E. symmetry in E.
    destruct (discard_head t2 _ _ k1 ltac:(assumption) ltac:(assumption) E)
      as (u & v & -> & Tu & Tv & E').
    simpl in L. rewrite ?length_app in L. sizes.
    symmetry in E'. by_terms IH E'. by_not_discarded IHn Er.
  - simpl in E. symmetry in E.
    destruct (discard_head t2 _ _ k1 ltac:(assumption) ltac:(assumption) E)
      as (u & v & -> & Tu & Tv & E').
    simpl in L. rewrite ?length_app in L. sizes.
    symmetry in E'. by_terms IH E'. by_not_discarded IHn Er.
  - simpl in E. injection E as E0 E. subst k2. by_terms IH E.
    destruct (IHd (List.length (yield_discarded tail1)
                   + List.length (yield_discarded tail2))%nat ltac:(lia)
                tail1 tail2 r1 r2 ltac:(lia) ltac:(assumption) ltac:(assumption)
                C1 C2 Er) as [-> ->].
    split; reflexivity.
Qed.

(** Statements of all sizes at once. *)
Lemma all_inj (n : nat) :
  term_inj n /\ contents_inj n /\ discarded_inj n /\ term_not_discarded n.
Proof.
  induction n as [n IH] using lt_wf_ind.
  assert (IHtc : forall m, (m < n)%nat -> term_inj m /\ contents_inj m)
    by (intros m Hm; destruct (IH m Hm) as (? & ? & ? & ?); now split).
  assert (IHd : forall m, (m < n)%nat -> discarded_inj m)
    by (intros m Hm; now destruct (IH m Hm) as (? & ? & ? & ?)).
  assert (IHn : forall m, (m < n)%nat -> term_not_discarded m)
    by (intros m Hm; now destruct (IH m Hm) as (? & ? & ? & ?)).
  pose proof (term_step n IHtc) as Tn.
  split; [exact Tn|].
  split; [now apply contents_step|].
  split; [now apply discarded_step | now apply not_discarded_step].
Qed.

Theorem yield_injective (m1 m2 : main_tree) :
  typed m1 = true -> typed m2 = true -> yield m1 = yield m2 -> m1 = m2.
Proof.
  intros T1 T2 E. destruct m1 as [c1|], m2 as [c2|]; simpl in *.
  - destruct (all_inj (List.length (yield_contents c1)
                       + List.length (yield_contents c2))) as (_ & C & _).
    destruct (C c1 c2 [] [] (le_n _) T1 T2 eq_refl eq_refl) as [-> _];
      [now rewrite !app_nil_r | reflexivity].
  - destruct (contents_head c1 T1) as (tok & rest & Y & _). congruence.
  - destruct (contents_head c2 T2) as (tok & rest & Y & _). congruence.
  - reflexivity.
Qed.

End GrammarFacts.


(** ** The reader on token streams *)

Section ReaderFacts.

Context {host : Host}.

Import Spec PyFacts.

Local Open Scope list_scope.

(** A token stream has one outcome at most. *)
Lemma parses_functional (tokens : list Token) (a b : result (list HyObject)) :
  parses tokens a -> parses tokens b -> a = b.
Proof.
  intros (m1 & T1 & Y1 & <-) (m2 & T2 & Y2 & <-).
  now rewrite (yield_injective m1 m2 T1 T2) by congruence.
Qed.

(** The tokens around a form only give it its span. *)
Lemma paren_strip (l r l' r' : Token) (cont : list HyObject) :
  strip_result strip (paren l cont r) = strip_result strip (paren l' cont r').
Proof.
  induction cont as [|c0 cont_1 IH];
    rewrite (paren_unfold l), (paren_unfold l').
  - reflexivity.
  - destruct ((3 <=? len (c0 :: cont_1)) && _).
    + destruct (reject_spurious_dots _); [|reflexivity]. cbn [bind].
      destruct (len (c0 :: cont_1) =? 3).
      * destruct cont_1 as [|c1 [|c2 [|c3 rest]]]; reflexivity.
      * destruct (paren l cont_1 r) as [v|e], (paren l' cont_1 r') as [v'|e'];
          simpl in IH; try discriminate.
        -- injection IH as IH. simpl. congruence.
        -- exact IH.
    + destruct (reject_spurious_dots _); reflexivity.
Qed.

(** C2: a form whose contents end in the separator dot and a last item,
    after one item or more, is the dotted list of the items before the
    dot and the last item: [Cons(a, b)] for one item before the dot,
    [Cons(a, ...)] of the dotted list of the rest for more; a form with
    another dot among its items is malformed. *)
Theorem dotted_form (l r : Token) (c : contents_tree)
    (init : list HyObject) (sep z : HyObject) :
  eval_contents c = Ok (init ++ [sep; z]) ->
  init <> [] ->
  is_dot sep = true ->
  (existsb is_dot (init ++ [z]) = false ->
   eval_term (Paren l c r) = Ok (dotted_list (form_span l r) init z)
   /\ (forall a, init = [a] ->
         eval_term (Paren l c r) = Ok (with_span (HyCons a z) (form_span l r)))
   /\ (forall a rest cdr, init = a :: rest -> rest <> [] ->
         paren l (rest ++ [sep; z]) r = Ok cdr ->
         eval_term (Paren l c r) = Ok (with_span (HyCons a cdr) (form_span l r))))
  /\ (existsb is_dot (init ++ [z]) = true ->
      exists line column,
        eval_term (Paren l c r)
        = Raise (LexException "Malformed dotted list" line column)).
Proof.
  intros E N D. simpl. rewrite E. cbn [bind]. unfold term. split.
  - intros F. rewrite (paren_dotted l r init sep z N D F).
    split; [reflexivity|]. split.
    + intros a ->. reflexivity.
    + intros a rest cdr -> Nr P. simpl.
      rewrite (paren_dotted l r rest sep z Nr D) in P.
      * now injection P as <-.
      * simpl in F. now apply orb_false_iff in F.
  - intros F.
    destruct (paren_dotted_spurious l r init sep z N D) as (line & column & ->);
      [|assumption|now exists line, column].
    pose proof (proj1 (proj2 eval_spanned) c _ E) as S.
    apply Forall_app in S as [Si Sz]. apply Forall_app. split; [assumption|].
    inversion Sz as [|x y Sx Sy]; subst. inversion Sy; subst.
    now constructor.
Qed.

(** C3 (amended): in a form without a dotted tail a dot is allowed as
    the first item and malformed anywhere after it; in a form with a
    dotted tail a dot is malformed anywhere but at the place of the
    separator, the first item included. *)
Theorem dot_placement (l r : Token) (c : contents_tree) (items : list HyObject) :
  eval_contents c = Ok items ->
  (~ dotted_tail items ->
   (existsb is_dot (tl items) = false ->
    eval_term (Paren l c r)
    = Ok (with_span (HyExpression items) (form_span l r)))
   /\ (existsb is_dot (tl items) = true ->
       exists line column,
         eval_term (Paren l c r)
         = Raise (LexException "Malformed dotted list" line column)))
  /\ (forall init sep z,
        items = init ++ [sep; z] -> init <> [] -> is_dot sep = true ->
        existsb is_dot (init ++ [z]) = true ->
        exists line column,
          eval_term (Paren l c r)
          = Raise (LexException "Malformed dotted list" line column)).
Proof.
  intros E. pose proof (proj1 (proj2 eval_spanned) c _ E) as S.
  simpl. rewrite E. cbn [bind]. unfold term. split.
  - intros N. split; intros F.
    + now rewrite (paren_plain l r items N F).
    + destruct (paren_plain_spurious l r items N S F) as (line & column & ->).
      now exists line, column.
  - intros init sep z -> N D F.
    destruct (paren_dotted_spurious l r init sep z N D) as (line & column & ->);
      [|assumption|now exists line, column].
    apply Forall_app in S as [Si Sz]. apply Forall_app. split; [assumption|].
    inversion Sz as [|x y Sx Sy]; subst. inversion Sy; subst.
    now constructor.
Qed.

(** C6 (amended): the name of every symbol of every object the reader
    returns is made of segments joined by ".", and a segment has no "-"
    unless it is "-" alone. *)
Theorem symbols_hyphen_free (m : main_tree) (forms : list HyObject) :
  eval_main m = Ok forms ->
  Forall hyphen_free_segments (flat_map symbol_names forms).
Proof.
  destruct m as [c|]; simpl.
  - intros E. apply bind_ok in E as (items & E & R). injection R as <-.
    exact (proj1 (proj2 eval_names) c items E).
  - intros E. injection E as <-. constructor.
Qed.

Lemma discarded_returns (tail : discarded_tree) :
  returns (eval_discarded tail) = true -> eval_discarded tail = Ok tt.
Proof. now destruct (eval_discarded tail) as [[]|e]. Qed.

(** C7: in a sequence, a discard followed by two terms counts as the
    second term, and a run of discards that ends the sequence counts for
    nothing; so the form of [#_a b] is the form of [b], and the form of
    [#_a #_b] is the empty form. *)
Theorem discard_in_sequence (l r l' r' d d' : Token) (a b : term_tree)
    (va vb : HyObject) :
  eval_term a = Ok va ->
  eval_term b = Ok vb ->
  (forall rest,
     eval_contents (Contents (Discard d a b) rest) = eval_contents (Contents b rest))
  /\ eval_contents (Single (Discard d a b)) = eval_contents (Single b)
  /\ (forall tail, returns (eval_discarded tail) = true ->
        eval_contents (Discarded d a tail) = Ok []
        /\ forall t vt, eval_term t = Ok vt ->
              eval_contents (Contents t (Discarded d a tail)) = Ok [vt])
  /\ strip_result strip (eval_term (Paren l (Single (Discard d a b)) r))
     = strip_result strip (eval_term (Paren l' (Single b) r'))
  /\ strip_result strip
       (eval_term (Paren l (Discarded d a (DiscardedMore d' b DiscardedEnd)) r))
     = strip_result strip (eval_term (EmptyParen l' r')).
Proof.
  intros Ea Eb. split; [|split; [|split; [intros tail R; split|split]]].
  - intros rest. simpl. now rewrite Ea, Eb.
  - simpl. now rewrite Ea, Eb.
  - simpl. rewrite Ea. cbn [bind].
    now rewrite (discarded_returns tail R).
  - intros t vt Et. simpl. rewrite Et, Ea. cbn [bind].
    now rewrite (discarded_returns tail R).
  - simpl. rewrite Ea, Eb. cbn [bind]. unfold term_discard, list_contents_single.
    pose proof (paren_strip l r l' r' [vb]) as P.
    destruct (paren l [vb] r), (paren l' [vb] r'); exact P.
  - simpl. rewrite Ea, Eb. reflexivity.
Qed.

Lemma length_asterisks (n : nat) : String.length (asterisks n) = n.
Proof. induction n; simpl; congruence. Qed.

(** C8: on a marker made of "#" and [n] asterisks, [term_hashstars]
    wraps the term in [unpack_iterable] for one asterisk and in
    [unpack_mapping] for two, and raises the malformed-input error at the
    position of the marker for any other number; the form of [#*x] is the
    form of [(unpack_iterable x)], for every [x] but the dot that the
    parenthesized form rejects. *)
Theorem hashstars_form (q : Token) (t : term_tree) (v : HyObject) (n : nat) :
  value q = String "#" (asterisks n) ->
  eval_term t = Ok v ->
  exists b,
    span_of v = Some b
    /\ eval_term (Hashstars q t)
       = match n with
         | 1%nat => Ok (HySeq KExpression [HySymbol "unpack_iterable"; v]
                          (Some (quote_span q b)))
         | 2%nat => Ok (HySeq KExpression [HySymbol "unpack_mapping"; v]
                          (Some (quote_span q b)))
         | _ => Raise (LexException too_many_stars
                         (lineno (source_pos q)) (colno (source_pos q)))
         end
    /\ (forall l r name,
          n = 1%nat -> value name = "unpack_iterable" ->
          ~ literal_like "unpack_iterable" -> is_dot v = false ->
          strip_result strip (eval_term (Hashstars q t))
          = strip_result strip
              (eval_term (Paren l (Contents (Identifier name) (Single t)) r))).
Proof.
  intros Q E.
  pose proof (proj1 eval_spanned t v E) as Sp. unfold spanned in Sp.
  destruct (span_of v) as [b|] eqn:Sv; [clear Sp | contradiction].
  exists b. split; [reflexivity|].
  assert (R : eval_term (Hashstars q t)
              = match n with
                | 1%nat => Ok (HySeq KExpression [HySymbol "unpack_iterable"; v]
                                 (Some (quote_span q b)))
                | 2%nat => Ok (HySeq KExpression [HySymbol "unpack_mapping"; v]
                                 (Some (quote_span q b)))
                | _ => Raise (LexException too_many_stars
                                (lineno (source_pos q)) (colno (source_pos q)))
                end).
  { simpl. rewrite E. cbn [bind]. unfold term_hashstars, set_quote_boundaries.
    rewrite Q, slice_tail. unfold strlen. rewrite length_asterisks.
    destruct n as [|[|[|n]]]; try reflexivity.
    - cbn. now rewrite Sv.
    - cbn. now rewrite Sv.
    - replace (Z.of_nat (S (S (S n))) =? 1) with false
        by (symmetry; apply Z.eqb_neq; lia).
      replace (Z.of_nat (S (S (S n))) =? 2) with false
        by (symmetry; apply Z.eqb_neq; lia).
      reflexivity. }
  split; [exact R|].
  intros l r name -> Vn NL D. rewrite R.
  cbn [eval_term eval_contents]. rewrite E.
  assert (I : t_identifier name
              = set_boundaries name None (Ok (HySymbol "unpack_iterable"))).
  { unfold t_identifier. rewrite Vn.
    destruct (symbol_like "unpack_iterable") eqn:SL.
    - exfalso. apply NL. apply symbol_like_literal. congruence.
    - reflexivity. }
  rewrite I. cbn [bind set_boundaries term list_contents list_contents_single app].
  rewrite paren_plain.
  - reflexivity.
  - intros (init & sep & z & Ei & Ni & Di).
    destruct init as [|x [|y init]]; [contradiction| |]; simpl in Ei.
    + discriminate.
    + injection Ei as _ _ Ei. destruct init; discriminate.
  - simpl. now rewrite D.
Qed.

(** When the parser gets to reduce a PARTIAL_STRING token, the parse
    ends on the request for more input. *)
Lemma reaches_partial_premature :
  (forall t, reaches_partial_term t = true ->
             eval_term t = Raise (PrematureEndOfInput "Premature end of input"))
  /\ (forall c, reaches_partial_contents c = true ->
                eval_contents c = Raise (PrematureEndOfInput "Premature end of input"))
  /\ (forall d, reaches_partial_discarded d = true ->
                eval_discarded d = Raise (PrematureEndOfInput "Premature end of input")).
Proof.
  apply tree_mutind; simpl; intros; try discriminate;
    repeat match goal with
           | H : _ || _ = true |- _ => apply orb_true_iff in H as [H|H]
           | H : _ && _ = true |- _ => apply andb_true_iff in H as [? H]
           | H : returns ?r = true |- _ => destruct r; [clear H | discriminate]
           | IH : ?p = true -> _, H : ?p = true |- _ => rewrite (IH H)
           end;
    reflexivity.
Qed.

(** C9: the action of [string : PARTIAL_STRING] raises the request for
    more input, whatever the text and the position of the token, and
    never a malformed-input error; so does the parse of every derivation
    in which the parser gets to that token. *)
Theorem partial_string_incomplete :
  (forall p0, t_partial_string p0
              = Raise (PrematureEndOfInput "Premature end of input"))
  /\ (forall p0 message line column,
        t_partial_string p0 <> Raise (LexException message line column))
  /\ (forall m, reaches_partial m = true ->
                eval_main m = Raise (PrematureEndOfInput "Premature end of input")).
Proof.
  split; [reflexivity|]. split; [discriminate|].
  intros [c|]; simpl; [|discriminate]. intros R.
  now rewrite (proj1 (proj2 reaches_partial_premature) c R).
Qed.

(** C10: the discard production returns the object of its second term
    as it is, with the span that term gave it: neither the marker nor the
    discarded term widens it. *)
Theorem discard_keeps_span (d : Token) (t1 t2 : term_tree) (v1 : HyObject) :
  eval_term t1 = Ok v1 ->
  eval_term (Discard d t1 t2) = eval_term t2
  /\ (forall v2, term_discard d v1 v2 = v2)
  /\ (forall v2, eval_term t2 = Ok v2 ->
        exists v, eval_term (Discard d t1 t2) = Ok v /\ span_of v = span_of v2).
Proof.
  intros E. simpl. rewrite E. cbn [bind]. unfold term_discard.
  split; [now destruct (eval_term t2)|]. split; [reflexivity|].
  intros v2 ->. now exists v2.
Qed.

End ReaderFacts.


(** ** The reader at work *)

Module Run.

Import Spec PyFacts Example.

#[local] Existing Instance Literal.host.

Local Open Scope list_scope.

Lemma not_literal (t : string) : symbol_like t = None -> ~ literal_like t.
Proof. intros E L. apply symbol_like_literal in L. contradiction. Qed.

Lemma no_occurrence (c : ascii) (s : string) :
  Py.contains (String c "") s = false -> ~ occurs c s.
Proof. apply contains_false_iff. Qed.

(** C1, the claim without its guard: none of the steps 1 to 5 succeeds
    on the text [5.attr], whose segments are [5] and [attr]; the last
    step as claimed makes it a symbol, and [t_identifier] raises. *)
Lemma unguarded_symbol_counterexample :
  ~ literal_like "5.attr"
  /\ segments "." "5.attr" ["5"; "attr"]
  /\ t_identifier (tok IDENTIFIER "5.attr" 1)
     = Raise (LexException not_a_name 1 1)
  /\ parses [tok IDENTIFIER "5.attr" 1] (Raise (LexException not_a_name 1 1)).
Proof.
  split; [now apply not_literal|].
  split; [exact (split_segments "." "5.attr")|].
  split; [reflexivity|].
  exists (Main (Single (ident "5.attr" 1))). now repeat split.
Qed.

Lemma dotted_5_attr : dotted_literal "5.attr".
Proof.
  exists "5", "attr". split; [reflexivity|].
  split; [now apply no_occurrence|]. left. discriminate.
Qed.

Lemma dotted_literal_rejected_witness :
  t_identifier (tok IDENTIFIER "5.attr" 1) = Raise (LexException not_a_name 1 1).
Proof.
  apply (dotted_literal_rejected (tok IDENTIFIER "5.attr" 1)).
  - exact dotted_5_attr.
  - apply not_literal. reflexivity.
Defined.

(** C4, the claim without the failure of the text itself: the text
    [5.5] has a "." after [5], an integer, and [t_identifier] makes a
    float of it. *)
Lemma dotted_float_counterexample :
  dotted_literal "5.5"
  /\ t_identifier (tok IDENTIFIER "5.5" 1)
     = Ok (HyAtom (AFloat {| Literal.mantissa := 55; Literal.exponent := -1 |})
             (Some {| start_line := 1; start_column := 1;
                      end_line := 1; end_column := 4 |})).
Proof.
  split; [|reflexivity].
  exists "5", "5". split; [reflexivity|].
  split; [now apply no_occurrence|]. left. discriminate.
Qed.

(** C6, the claim on the whole name: the reader makes the symbol [a.-]
    of the token [a.-]; the name has a "-" and is not "-". *)
Lemma dotted_hyphen_counterexample :
  parses [tok IDENTIFIER "a.-" 1] (Ok [symbol "a.-" 1 3])
  /\ occurs "-" "a.-"
  /\ "a.-" <> "-".
Proof.
  split; [|split; [now exists "a.", "" | discriminate]].
  exists (Main (Single (ident "a.-" 1))). now repeat split.
Qed.

(** The symbols of the two forms read from the text of a symbol ending
    in a question mark and of a parenthesized pair of a dotted and of an
    earmuffed symbol. *)
Lemma symbols_hyphen_free_witness :
  Forall hyphen_free_segments
    (flat_map symbol_names
       [symbol "is_foo_bar" 1 8;
        expression [symbol "a.-" 11 3; symbol "X" 15 3] 10 18]).
Proof.
  apply (symbols_hyphen_free
           (Main (Contents (ident "foo-bar?" 1)
                    (Single (Paren (lparen 10)
                               (Contents (ident "a.-" 11) (Single (ident "*x*" 15)))
                               (rparen 18)))))).
  reflexivity.
Defined.

(** [(a b . c)] *)
Lemma dotted_form_witness :
  parses [lparen 1; tok IDENTIFIER "a" 2; tok IDENTIFIER "b" 4;
          tok IDENTIFIER "." 6; tok IDENTIFIER "c" 8; rparen 9]
    (Ok [dotted_list (form_span (lparen 1) (rparen 9))
           [symbol "a" 2 1; symbol "b" 4 1] (symbol "c" 8 1)]).
Proof.
  exists (Main (Single (Paren (lparen 1)
                          (Contents (ident "a" 2) (Contents (ident "b" 4)
                             (Contents (ident "." 6) (Single (ident "c" 8)))))
                          (rparen 9)))).
  split; [reflexivity|]. split; [reflexivity|].
  cbn [eval_main eval_contents].
  rewrite (proj1 (proj1 (dotted_form (lparen 1) (rparen 9)
                    (Contents (ident "a" 2) (Contents (ident "b" 4)
                       (Contents (ident "." 6) (Single (ident "c" 8)))))
                    [symbol "a" 2 1; symbol "b" 4 1] (symbol "." 6 1) (symbol "c" 8 1)
                    eq_refl ltac:(discriminate) eq_refl) eq_refl)).
  reflexivity.
Defined.

(** [(a . b)] and [(a . b . c)] *)
Example dotted_pair :
  parses [lparen 1; tok IDENTIFIER "a" 2; tok IDENTIFIER "." 4;
          tok IDENTIFIER "b" 6; rparen 7]
    (Ok [with_span (HyCons (symbol "a" 2 1) (symbol "b" 6 1))
           (form_span (lparen 1) (rparen 7))]).
Proof.
  exists (Main (Single (Paren (lparen 1)
                          (Contents (ident "a" 2)
                             (Contents (ident "." 4) (Single (ident "b" 6))))
                          (rparen 7)))).
  now repeat split.
Qed.

Example two_separators :
  parses [lparen 1; tok IDENTIFIER "a" 2; tok IDENTIFIER "." 4;
          tok IDENTIFIER "b" 6; tok IDENTIFIER "." 8; tok IDENTIFIER "c" 10;
          rparen 11]
    (Raise (LexException "Malformed dotted list" 1 4)).
Proof.
  exists (Main (Single (Paren (lparen 1)
                          (Contents (ident "a" 2)
                             (Contents (ident "." 4)
                                (Contents (ident "b" 6)
                                   (Contents (ident "." 8) (Single (ident "c" 10))))))
                          (rparen 11)))).
  now repeat split.
Qed.

(** C3, the first item of a form with a dotted tail: the contents of
    [(. a . b)] are a dot, [a], the separator and [b], and the form is
    malformed at its first item. *)
Lemma first_dot_counterexample :
  eval_contents
    (Contents (ident "." 2)
       (Contents (ident "a" 4) (Contents (ident "." 6) (Single (ident "b" 8)))))
  = Ok [symbol "." 2 1; symbol "a" 4 1; symbol "." 6 1; symbol "b" 8 1]
  /\ parses [lparen 1; tok IDENTIFIER "." 2; tok IDENTIFIER "a" 4;
             tok IDENTIFIER "." 6; tok IDENTIFIER "b" 8; rparen 9]
       (Raise (LexException "Malformed dotted list" 1 2)).
Proof.
  split; [reflexivity|].
  exists (Main (Single (Paren (lparen 1)
                          (Contents (ident "." 2)
                             (Contents (ident "a" 4)
                                (Contents (ident "." 6) (Single (ident "b" 8)))))
                          (rparen 9)))).
  now repeat split.
Qed.

Lemma no_dotted_tail (items : list HyObject) :
  (3 <=? len items)
  && match Py.item items (-2) with
     | Some x => is_dot x
     | None => false
     end = false ->
  ~ dotted_tail items.
Proof. intros F T. apply dotted_test in T. congruence. Qed.

(** [(. a b)]: the dot is the first item. *)
Lemma dot_placement_witness :
  eval_term (Paren (lparen 1)
               (Contents (ident "." 2) (Contents (ident "a" 4) (Single (ident "b" 6))))
               (rparen 7))
  = Ok (expression [symbol "." 2 1; symbol "a" 4 1; symbol "b" 6 1] 1 7).
Proof.
  apply (dot_placement (lparen 1) (rparen 7)
           (Contents (ident "." 2) (Contents (ident "a" 4) (Single (ident "b" 6))))
           [symbol "." 2 1; symbol "a" 4 1; symbol "b" 6 1] eq_refl).
  - apply no_dotted_tail. reflexivity.
  - reflexivity.
Defined.

(** [(#_a b)] and [(b)] *)
Lemma discard_in_sequence_witness :
  strip_result strip
    (eval_term (Paren (lparen 1)
                  (Single (Discard (discard 2) (ident "a" 4) (ident "b" 6)))
                  (rparen 7)))
  = strip_result strip
      (eval_term (Paren (lparen 5) (Single (ident "b" 6)) (rparen 7))).
Proof.
  apply (discard_in_sequence (lparen 1) (rparen 7) (lparen 5) (rparen 7)
           (discard 2) (discard 2) (ident "a" 4) (ident "b" 6)
           (symbol "a" 4 1) (symbol "b" 6 1) eq_refl eq_refl).
Defined.

Example discard_then_term :
  exists forms forms',
    parses [lparen 1; discard 2; tok IDENTIFIER "a" 4; tok IDENTIFIER "b" 6; rparen 7]
      (Ok forms)
    /\ parses [lparen 1; tok IDENTIFIER "b" 2; rparen 3] (Ok forms')
    /\ forms = [expression [symbol "b" 6 1] 1 7]
    /\ forms' = [expression [symbol "b" 2 1] 1 3]
    /\ map strip forms = map strip forms'.
Proof.
  eexists; eexists. split; [|split; [|split; [|split]]].
  - exists (Main (Single (Paren (lparen 1)
                            (Single (Discard (discard 2) (ident "a" 4) (ident "b" 6)))
                            (rparen 7)))).
    split; [reflexivity|]. split; reflexivity.
  - exists (Main (Single (Paren (lparen 1) (Single (ident "b" 2)) (rparen 3)))).
    split; [reflexivity|]. split; reflexivity.
  - reflexivity.
  - reflexivity.
  - reflexivity.
Qed.

Example discards_only :
  exists forms forms',
    parses [lparen 1; discard 2; tok IDENTIFIER "a" 4;
            discard 6; tok IDENTIFIER "b" 8; rparen 9]
      (Ok forms)
    /\ parses [lparen 1; rparen 2] (Ok forms')
    /\ forms = [expression [] 1 9]
    /\ forms' = [expression [] 1 2]
    /\ map strip forms = map strip forms'.
Proof.
  eexists; eexists. split; [|split; [|split; [|split]]].
  - exists (Main (Single (Paren (lparen 1)
                            (Discarded (discard 2) (ident "a" 4)
                               (DiscardedMore (discard 6) (ident "b" 8) DiscardedEnd))
                            (rparen 9)))).
    split; [reflexivity|]. split; reflexivity.
  - exists (Main (Single (EmptyParen (lparen 1) (rparen 2)))).
    split; [reflexivity|]. split; reflexivity.
  - reflexivity.
  - reflexivity.
  - reflexivity.
Qed.

(** [#*x] *)
Lemma hashstars_form_witness :
  exists b,
    span_of (symbol "x" 3 1) = Some b
    /\ eval_term (Hashstars (tok HASHSTARS "#*" 1) (ident "x" 3))
       = Ok (HySeq KExpression [HySymbol "unpack_iterable"; symbol "x" 3 1]
               (Some (quote_span (tok HASHSTARS "#*" 1) b))).
Proof.
  destruct (hashstars_form (tok HASHSTARS "#*" 1) (ident "x" 3) (symbol "x" 3 1)
              1 eq_refl eq_refl) as (b & Sb & R & _).
  exists b. split; assumption.
Defined.

Example unpack_iterable_form :
  exists forms forms',
    parses [tok HASHSTARS "#*" 1; tok IDENTIFIER "x" 3] (Ok forms)
    /\ parses [lparen 1; tok IDENTIFIER "unpack_iterable" 2;
               tok IDENTIFIER "x" 18; rparen 19]
         (Ok forms')
    /\ map strip forms = map strip forms'
    /\ map strip forms = [HyExpression [HySymbol "unpack_iterable"; HySymbol "x"]].
Proof.
  eexists; eexists. split; [|split; [|split]].
  - exists (Main (Single (Hashstars (tok HASHSTARS "#*" 1) (ident "x" 3)))).
    split; [reflexivity|]. split; reflexivity.
  - exists (Main (Single (Paren (lparen 1)
                            (Contents (ident "unpack_iterable" 2) (Single (ident "x" 18)))
                            (rparen 19)))).
    split; [reflexivity|]. split; reflexivity.
  - reflexivity.
  - reflexivity.
Qed.

Example unpack_mapping_form :
  exists forms,
    parses [tok HASHSTARS "#**" 1; tok IDENTIFIER "x" 4] (Ok forms)
    /\ map strip forms = [HyExpression [HySymbol "unpack_mapping"; HySymbol "x"]].
Proof.
  eexists. split.
  - exists (Main (Single (Hashstars (tok HASHSTARS "#**" 1) (ident "x" 4)))).
    split; [reflexivity|]. split; reflexivity.
  - reflexivity.
Qed.

Example three_stars :
  parses [tok HASHSTARS "#***" 1; tok IDENTIFIER "x" 5]
    (Raise (LexException too_many_stars 1 1)).
Proof.
  exists (Main (Single (Hashstars (tok HASHSTARS "#***" 1) (ident "x" 5)))).
  now repeat split.
Qed.

(** An unterminated string after a symbol, in a list. *)
Lemma partial_string_incomplete_witness :
  eval_main
    (Main (Contents (ident "a" 1)
             (Single (List_ (tok LBRACKET "[" 3)
                        (Single (PartialString
                                   (tok PARTIAL_STRING (String dquote "abc") 4)))
                        (tok RBRACKET "]" 8)))))
  = Raise (PrematureEndOfInput "Premature end of input").
Proof.
  apply (proj2 (proj2 partial_string_incomplete)). reflexivity.
Defined.

(** [#_a b]: the span of [b]. *)
Lemma discard_keeps_span_witness :
  exists v,
    eval_term (Discard (discard 1) (ident "a" 3) (ident "b" 5)) = Ok v
    /\ span_of v = span_of (symbol "b" 5 1).
Proof.
  apply (discard_keeps_span (discard 1) (ident "a" 3) (ident "b" 5)
           (symbol "a" 3 1) eq_refl).
  reflexivity.
Defined.

(** The same term under a quote takes the position of the marker. *)
Example quote_widens_span :
  eval_term (Quote (tok QUOTE "'" 1) (ident "b" 5))
  = Ok (HySeq KExpression [HySymbol "quote"; symbol "b" 5 1]
          (Some {| start_line := 1; start_column := 1;
                   end_line := 1; end_column := 6 |})).
Proof. reflexivity. Qed.

End Run.


(** ** Spans and errors of a derivation *)

Section SpanFacts.

Context {host : Host}.

Import Spec PyFacts Tokens.

Local Open Scope list_scope.

Lemma span_with_span (o : HyObject) (sp : boundaries) :
  span_of (with_span o sp) = Some sp.
Proof. now destruct o. Qed.

Lemma set_boundaries_one (p0 : Token) (ret : result HyObject) (v : HyObject) :
  set_boundaries p0 None ret = Ok v ->
  span_of v
  = Some {| start_line := lineno (source_pos p0);
            start_column := colno (source_pos p0);
            end_line := lineno (source_pos p0);
            end_column := colno (source_pos p0) + strlen (value p0) |}.
Proof.
  unfold set_boundaries. intros E. apply bind_ok in E as (o & _ & E).
  injection E as <-. apply span_with_span.
Qed.

Lemma set_boundaries_two (l r : Token) (ret : result HyObject) (v : HyObject) :
  set_boundaries l (Some r) ret = Ok v -> span_of v = Some (form_span l r).
Proof.
  unfold set_boundaries. intros E. apply bind_ok in E as (o & _ & E).
  injection E as <-. apply span_with_span.
Qed.

Lemma set_quote_boundaries_span (q : Token) (last : HyObject)
    (ret : result HyObject) (v : HyObject) :
  set_quote_boundaries q last ret = Ok v ->
  exists b, span_of last = Some b /\ span_of v = Some (quote_span q b).
Proof.
  unfold set_quote_boundaries. intros E. apply bind_ok in E as (o & _ & E).
  destruct (span_of last) as [b|]; [|discriminate]. injection E as <-.
  exists b. split; [reflexivity | apply span_with_span].
Qed.

(** The span of the object of a term, by induction on the term. *)
Lemma term_span (t : term_tree) (v : HyObject) :
  eval_term t = Ok v -> span_of v = Some (token_span t).
Proof.
  revert v. induction t; intros v E; simpl in E; unfold term in E;
    repeat match type of E with
           | bind _ _ = Ok _ =>
               let a := fresh "a" in
               let Ea := fresh "Ea" in
               apply bind_ok in E as (a & Ea & E)
           end;
    try (injection E as <-);
    try discriminate;
    try reflexivity;
    unfold t_identifier, t_string, t_bracket_string, empty_paren, t_set,
      empty_set, t_dict, empty_dict, t_list, t_empty_list, term_quote,
      term_quasiquote, term_unquote, term_unquote_splice, term_hashstars,
      hash_other in *;
    try (match goal with
         | H : set_boundaries _ None _ = Ok _ |- _ =>
             apply set_boundaries_one in H; exact H
         | H : set_boundaries _ (Some _) _ = Ok _ |- _ =>
             apply set_boundaries_two in H; exact H
         | H : paren _ _ _ = Ok _ |- _ =>
             rewrite paren_unfold in H; apply set_boundaries_two in H; exact H
         end).
  - unfold term_discard. now apply IHt2.
  - apply set_quote_boundaries_span in E as (b & Sb & ->).
    rewrite (IHt _ Ea) in Sb. now injection Sb as <-.
  - apply set_quote_boundaries_span in E as (b & Sb & ->).
    rewrite (IHt _ Ea) in Sb. now injection Sb as <-.
  - apply set_quote_boundaries_span in E as (b & Sb & ->).
    rewrite (IHt _ Ea) in Sb. now injection Sb as <-.
  - apply set_quote_boundaries_span in E as (b & Sb & ->).
    rewrite (IHt _ Ea) in Sb. now injection Sb as <-.
  - apply set_quote_boundaries_span in E as (b & Sb & ->).
    rewrite (IHt _ Ea) in Sb. now injection Sb as <-.
  - apply set_quote_boundaries_span in E as (b & Sb & ->).
    rewrite (IHt _ Ea) in Sb. now injection Sb as <-.
Qed.

(** X3: the span of the object of a term is read off its tokens alone:
    it starts where the first token that is not discarded starts, and it
    ends after the text of a single token, at the start of the closing
    bracket of a bracketed form, and where the wrapped term ends for a
    form made by a marker. *)
Theorem span_from_tokens (t : term_tree) (v : HyObject) :
  eval_term t = Ok v -> span_of v = Some (token_span t).
Proof. apply term_span. Qed.

Lemma reject_dots_ok_inv (items : list HyObject) (u : unit) :
  reject_dots_in items = Ok u -> existsb is_dot items = false.
Proof.
  induction items as [|tok rest IH]; simpl; [reflexivity|].
  destruct (is_dot tok); [now destruct (span_of tok)|]. exact IH.
Qed.

(** [reject_dots_in] stops at the first dot. *)
Lemma reject_dots_first (items : list HyObject) (e : exception) :
  reject_dots_in items = Raise e ->
  exists before x after,
    items = before ++ x :: after
    /\ existsb is_dot before = false
    /\ is_dot x = true
    /\ e = match span_of x with
           | Some b => LexException "Malformed dotted list"
                         (start_line b) (start_column b)
           | None => PythonError "AttributeError"
           end.
Proof.
  induction items as [|tok rest IH]; simpl; [discriminate|].
  destruct (is_dot tok) eqn:D.
  - intros E. exists [], tok, rest. repeat split; try assumption.
    destruct (span_of tok); now injection E as <-.
  - intros E. destruct (IH E) as (before & x & after & -> & B & X & He).
    exists (tok :: before), x, after. repeat split; try assumption.
    simpl. now rewrite D.
Qed.

(** What [paren] comes to: the check of the items after the first, then
    the expression; or, for a dotted tail, the check of all the items but
    the separator, then the dotted list. *)
Lemma paren_cases (l r : Token) (cont : list HyObject) :
  (~ dotted_tail cont
   /\ paren l cont r
      = (reject_dots_in (tl cont) ;;;
         Ok (with_span (HyExpression cont) (form_span l r))))
  \/ (exists init sep z,
        cont = init ++ [sep; z] /\ init <> [] /\ is_dot sep = true
        /\ paren l cont r
           = (reject_dots_in (init ++ [z]) ;;;
              Ok (dotted_list (form_span l r) init z))).
Proof.
  destruct ((3 <=? len cont)
            && match Py.item cont (-2) with
               | Some x => is_dot x
               | None => false
               end) eqn:T.
  - right. pose proof (proj1 (dotted_test cont) T) as (init & sep & z & -> & N & D).
    exists init, sep, z. repeat split; try assumption.
    destruct (reject_dots_in (init ++ [z])) as [u|e] eqn:R.
    + apply reject_dots_ok_inv in R. now rewrite paren_dotted.
    + rewrite paren_unfold, T, slice_init_items, slice_last_item,
        reject_spurious_two, R. reflexivity.
  - left. split.
    + intros D. apply dotted_test in D. congruence.
    + rewrite paren_unfold, T, reject_spurious_one, slice_rest.
      now destruct (reject_dots_in (tl cont)) as [[]|e].
Qed.

Lemma in_tl {A} (x : A) (l : list A) : In x (tl l) -> In x l.
Proof. destruct l; simpl; auto. Qed.

(** An error of [paren] is the malformed-input error at a dot among its
    items. *)
Lemma paren_raises (l r : Token) (cont : list HyObject) (e : exception) :
  Forall spanned cont ->
  paren l cont r = Raise e ->
  exists x b,
    In x cont /\ is_dot x = true /\ span_of x = Some b
    /\ e = LexException "Malformed dotted list" (start_line b) (start_column b).
Proof.
  intros S.
  assert (K : forall items, incl items cont -> reject_dots_in items = Raise e ->
              exists x b,
                In x cont /\ is_dot x = true /\ span_of x = Some b
                /\ e = LexException "Malformed dotted list"
                         (start_line b) (start_column b)).
  { intros items I R.
    destruct (reject_dots_first items e R) as (before & x & after & -> & _ & X & He).
    assert (Ix : In x cont) by (apply I, in_or_app; right; now left).
    pose proof (proj1 (Forall_forall _ _) S x Ix) as Sx. unfold spanned in Sx.
    destruct (span_of x) as [b|] eqn:Sb; [|contradiction].
    now exists x, b. }
  destruct (paren_cases l r cont) as [[_ ->]|(init & sep & z & -> & _ & _ & ->)];
    intros E.
  - destruct (reject_dots_in (tl cont)) as [u|e'] eqn:R; [discriminate|].
    injection E as <-. apply (K (tl cont)); [|assumption].
    intros x. apply in_tl.
  - destruct (reject_dots_in (init ++ [z])) as [u|e'] eqn:R; [discriminate|].
    injection E as <-. apply (K (init ++ [z])); [|assumption].
    intros x Ix. apply in_app_or in Ix as [Ix|[<-|[]]]; apply in_or_app.
    + now left.
    + right. right. now left.
Qed.

(** X7: when a parenthesized form is malformed for its dots, the error is
    at the first misplaced dot: the first dot among the items after the
    first item when the form has no dotted tail, the first dot among the
    items other than the separator when it has one; its line and column
    are those of the start of that dot. *)
Theorem first_misplaced_dot (l r : Token) (c : contents_tree)
    (items : list HyObject) (e : exception) :
  eval_contents c = Ok items ->
  eval_term (Paren l c r) = Raise e ->
  exists before x after b,
    existsb is_dot before = false
    /\ is_dot x = true
    /\ span_of x = Some b
    /\ e = LexException "Malformed dotted list" (start_line b) (start_column b)
    /\ ((~ dotted_tail items /\ tl items = before ++ x :: after)
        \/ (exists init sep z,
              items = init ++ [sep; z] /\ init <> [] /\ is_dot sep = true
              /\ init ++ [z] = before ++ x :: after)).
Proof.
  intros E. pose proof (proj1 (proj2 eval_spanned) c _ E) as S.
  simpl. rewrite E. cbn [bind]. unfold term.
  assert (K : forall checked, incl checked items ->
              reject_dots_in checked = Raise e ->
              exists before x after b,
                existsb is_dot before = false /\ is_dot x = true
                /\ span_of x = Some b
                /\ e = LexException "Malformed dotted list"
                         (start_line b) (start_column b)
                /\ checked = before ++ x :: after).
  { intros checked I R.
    destruct (reject_dots_first checked e R) as (before & x & after & -> & B & X & He).
    assert (Ix : In x items) by (apply I, in_or_app; right; now left).
    pose proof (proj1 (Forall_forall _ _) S x Ix) as Sx. unfold spanned in Sx.
    destruct (span_of x) as [b|] eqn:Sb; [|contradiction].
    now exists before, x, after, b. }
  destruct (paren_cases l r items)
    as [[N ->]|(init & sep & z & Ei & Ni & D & ->)]; intros R.
  - destruct (reject_dots_in (tl items)) as [u|e'] eqn:Rj; [discriminate|].
    injection R as <-.
    destruct (K (tl items)) as (before & x & after & b & B & X & Sb & He & Ec);
      [intros y; apply in_tl | assumption |].
    exists before, x, after, b. repeat split; try assumption. left. now split.
  - destruct (reject_dots_in (init ++ [z])) as [u|e'] eqn:Rj; [discriminate|].
    injection R as <-.
    destruct (K (init ++ [z])) as (before & x & after & b & B & X & Sb & He & Ec);
      [|assumption|].
    { subst items. intros y Iy.
      apply in_app_or in Iy as [Iy|[<-|[]]]; apply in_or_app;
        [now left | right; right; now left]. }
    exists before, x, after, b. repeat split; try assumption.
    right. now exists init, sep, z.
Qed.

Lemma leading_token_in_yield (t : term_tree) : In (leading_token t) (yield_term t).
Proof.
  induction t; simpl; auto.
  right. apply in_or_app. now right.
Qed.

Lemma located_incl (a b : list Token) (line column : Z) :
  incl a b -> located a line column -> located b line column.
Proof. intros I (t & It & L). exists t. split; [now apply I | assumption]. Qed.

Lemma term_starts_at (t : term_tree) (v : HyObject) :
  eval_term t = Ok v -> starts_at (yield_term t) v.
Proof.
  intros E. exists (token_span t). split; [now apply term_span|].
  exists (leading_token t). split; [apply leading_token_in_yield|]. now split.
Qed.

Lemma starts_at_incl (a b : list Token) (o : HyObject) :
  incl a b -> starts_at a o -> starts_at b o.
Proof.
  intros I (sp & S & L). exists sp. split; [assumption|].
  now apply (located_incl a b).
Qed.

(** The items of contents start at tokens of the contents. *)
Lemma contents_start_at (c : contents_tree) (items : list HyObject) :
  eval_contents c = Ok items -> Forall (starts_at (yield_contents c)) items.
Proof.
  revert items. induction c as [t rest IH|t|d t tail]; intros items E; simpl in E.
  - apply bind_ok in E as (p0 & E0 & E). apply bind_ok in E as (p1 & E1 & E).
    injection E as <-. simpl. constructor.
    + apply (starts_at_incl (yield_term t)); [apply incl_appl, incl_refl|].
      now apply term_starts_at.
    + eapply Forall_impl; [|exact (IH p1 E1)].
      intros o. apply starts_at_incl. apply incl_appr, incl_refl.
  - apply bind_ok in E as (p0 & E0 & E). injection E as <-.
    constructor; [now apply term_starts_at | constructor].
  - apply bind_ok in E as (p1 & E1 & E). apply bind_ok in E as (p2 & E2 & E).
    injection E as <-. constructor.
Qed.

Lemma paren_located (l r : Token) (c : contents_tree) (items : list HyObject)
    (e : exception) :
  eval_contents c = Ok items ->
  paren l items r = Raise e ->
  exists line column,
    e = LexException "Malformed dotted list" line column
    /\ located (yield_contents c) line column.
Proof.
  intros E R. pose proof (proj1 (proj2 eval_spanned) c _ E) as S.
  destruct (paren_raises l r items e S R) as (x & b & Ix & _ & Sb & ->).
  exists (start_line b), (start_column b). split; [reflexivity|].
  pose proof (proj1 (Forall_forall _ _) (contents_start_at c items E) x Ix)
    as (b' & Sb' & L).
  rewrite Sb in Sb'. now injection Sb' as <-.
Qed.

Lemma bind_raise {A B} (r : result A) (k : A -> result B) (e : exception) :
  bind r k = Raise e -> r = Raise e \/ exists a, r = Ok a /\ k a = Raise e.
Proof. destruct r as [a|e']; simpl; [eauto | intros E; left; congruence]. Qed.

Lemma set_boundaries_raise (l : Token) (r : option Token)
    (ret : result HyObject) (e : exception) :
  set_boundaries l r ret = Raise e -> ret = Raise e.
Proof. destruct ret; simpl; [discriminate | auto]. Qed.

Lemma set_quote_boundaries_raise (q : Token) (last : HyObject)
    (ret : result HyObject) (e : exception) :
  spanned last -> set_quote_boundaries q last ret = Raise e -> ret = Raise e.
Proof.
  unfold spanned, set_quote_boundaries. intros S.
  destruct ret; simpl; [|auto]. destruct (span_of last); [discriminate | contradiction].
Qed.

Lemma accounted_weaken (a b : list Token) (read read' : bool) (e : exception) :
  incl a b -> (read = false -> read' = false) ->
  accounted a read e -> accounted b read' e.
Proof.
  intros I R. destruct e; simpl; auto.
  intros [M L]. split; [assumption | now apply (located_incl a b)].
Qed.

Lemma located_head (t : Token) (rest : list Token) :
  located (t :: rest) (lineno (source_pos t)) (colno (source_pos t)).
Proof. exists t. split; [now left | now split]. Qed.

Lemma andb_false_l (a b : bool) : a = false -> a && b = false.
Proof. now intros ->. Qed.

Lemma andb_false_r' (a b : bool) : b = false -> a && b = false.
Proof. intros ->. apply andb_false_r. Qed.

(** An error of a sequence form comes from its contents. *)
Lemma sequence_accounted (l r : Token) (c : contents_tree) (k : sequence)
    (e : exception) :
  (forall e, eval_contents c = Raise e ->
             accounted (yield_contents c) (literals_read_contents c) e) ->
  (p1 <- eval_contents c ;;
   v <- set_boundaries l (Some r) (Ok (HySeq k p1 None)) ;; Ok (term v)) = Raise e ->
  accounted (l :: yield_contents c ++ [r]) (literals_read_contents c) e.
Proof.
  intros IH E. apply bind_raise in E as [E|(p1 & _ & E)]; [|discriminate].
  apply (accounted_weaken (yield_contents c) _ (literals_read_contents c));
    [apply incl_tl, incl_appl, incl_refl | auto | now apply IH].
Qed.

(** An error of a form made by a marker comes from the wrapped term. *)
Lemma marked_accounted (q : Token) (t : term_tree)
    (make : HyObject -> result HyObject) (e : exception) :
  (forall e, eval_term t = Raise e ->
             accounted (yield_term t) (literals_read_term t) e) ->
  (forall p1 e, make p1 = Raise e ->
                e = LexException too_many_stars
                      (lineno (source_pos q)) (colno (source_pos q))) ->
  (p1 <- eval_term t ;; set_quote_boundaries q p1 (make p1)) = Raise e ->
  accounted (q :: yield_term t) (literals_read_term t) e.
Proof.
  intros IH M E. apply bind_raise in E as [E|(p1 & E1 & E)].
  - apply (accounted_weaken (yield_term t) _ (literals_read_term t));
      [apply incl_tl, incl_refl | auto | now apply IH].
  - apply set_quote_boundaries_raise in E; [|exact (proj1 eval_spanned t p1 E1)].
    rewrite (M p1 e E). split; [right; now left | apply located_head].
Qed.

(** Every error of a derivation is accounted for. *)
Lemma eval_accounted :
  (forall t e, eval_term t = Raise e ->
               accounted (yield_term t) (literals_read_term t) e)
  /\ (forall c e, eval_contents c = Raise e ->
                  accounted (yield_contents c) (literals_read_contents c) e)
  /\ (forall d e, eval_discarded d = Raise e ->
                  accounted (yield_discarded d) (literals_read_discarded d) e).
Proof.
  apply tree_mutind.
  - (* identifier *)
    intros t e E. simpl in E. apply bind_raise in E as [E|(v & _ & E)]; [|discriminate].
    unfold t_identifier in E. apply set_boundaries_raise in E.
    destruct (symbol_like (value t)); [discriminate|].
    destruct (Py.contains "." (value t) && _); [|discriminate].
    injection E as <-. split; [right; right; now left | apply located_head].
  - (* paren *)
    intros l c IH r e E. simpl in E.
    apply bind_raise in E as [E|(items & Ei & E)].
    + apply (accounted_weaken (yield_contents c) _ (literals_read_contents c));
        [apply incl_tl, incl_appl, incl_refl | auto | now apply IH].
    + apply bind_raise in E as [E|(v & _ & E)]; [|discriminate].
      destruct (paren_located l r c items e Ei E) as (line & column & -> & L).
      split; [now left|].
      apply (located_incl (yield_contents c)); [|assumption].
      apply incl_tl, incl_appl, incl_refl.
  - intros l r e E. discriminate.
  - intros l c IH r e E. now apply (sequence_accounted l r c KSet).
  - intros l r e E. discriminate.
  - intros l c IH r e E. now apply (sequence_accounted l r c KDict).
  - intros l r e E. discriminate.
  - intros l c IH r e E. now apply (sequence_accounted l r c KList).
  - intros l r e E. discriminate.
  - (* string *)
    intros t e E. simpl in E. apply bind_raise in E as [E|(v & _ & E)]; [|discriminate].
    simpl. rewrite E. unfold t_string in E. apply set_boundaries_raise in E.
    destruct (eval_literal _) as [[s|s]|]; try discriminate.
    injection E as <-. reflexivity.
  - intros t e E. simpl in E. injection E as <-. reflexivity.
  - (* bracket string *)
    intros t e E. simpl in E. apply bind_raise in E as [E|(v & _ & E)]; [|discriminate].
    simpl. rewrite E. unfold t_bracket_string in E. apply set_boundaries_raise in E.
    destruct (bracket_string_groups _) as [[delim content]|]; try discriminate.
    injection E as <-. reflexivity.
  - (* discard *)
    intros d t1 IH1 t2 IH2 e E. simpl in E.
    apply bind_raise in E as [E|(p1 & _ & E)].
    + apply (accounted_weaken (yield_term t1) _ (literals_read_term t1));
        [apply incl_tl, incl_appl, incl_refl | apply andb_false_l | now apply IH1].
    + apply bind_raise in E as [E|(p2 & _ & E)]; [|discriminate].
      apply (accounted_weaken (yield_term t2) _ (literals_read_term t2));
        [apply incl_tl, incl_appr, incl_refl | apply andb_false_r' | now apply IH2].
  - intros q t IH e E.
    apply (marked_accounted q t (fun p1 => Ok (HyExpression [HySymbol "quote"; p1])));
      [assumption | discriminate | exact E].
  - intros q t IH e E.
    apply (marked_accounted q t
             (fun p1 => Ok (HyExpression [HySymbol "quasiquote"; p1])));
      [assumption | discriminate | exact E].
  - intros q t IH e E.
    apply (marked_accounted q t (fun p1 => Ok (HyExpression [HySymbol "unquote"; p1])));
      [assumption | discriminate | exact E].
  - intros q t IH e E.
    apply (marked_accounted q t
             (fun p1 => Ok (HyExpression [HySymbol "unquote_splice"; p1])));
      [assumption | discriminate | exact E].
  - (* hashstars *)
    intros q t IH e E.
    refine (marked_accounted q t _ e IH _ E).
    intros p1 e' M. apply bind_raise in M as [M|(sym & _ & M)]; [|discriminate].
    destruct (_ =? 1); [discriminate|]. destruct (_ =? 2); [discriminate|].
    now injection M as <-.
  - intros q t IH e E.
    refine (marked_accounted q t _ e IH _ E). discriminate.
  - (* contents *)
    intros t IH1 rest IH2 e E. simpl in E.
    apply bind_raise in E as [E|(p0 & _ & E)].
    + apply (accounted_weaken (yield_term t) _ (literals_read_term t));
        [apply incl_appl, incl_refl | apply andb_false_l | now apply IH1].
    + apply bind_raise in E as [E|(p1 & _ & E)]; [|discriminate].
      apply (accounted_weaken (yield_contents rest) _ (literals_read_contents rest));
        [apply incl_appr, incl_refl | apply andb_false_r' | now apply IH2].
  - intros t IH e E. simpl in E.
    apply bind_raise in E as [E|(p0 & _ & E)]; [|discriminate]. now apply IH.
  - intros d t IH1 tail IH2 e E. simpl in E.
    apply bind_raise in E as [E|(p1 & _ & E)].
    + apply (accounted_weaken (yield_term t) _ (literals_read_term t));
        [apply incl_tl, incl_appl, incl_refl | apply andb_false_l | now apply IH1].
    + apply bind_raise in E as [E|(p2 & _ & E)]; [|discriminate].
      apply (accounted_weaken (yield_discarded tail) _ (literals_read_discarded tail));
        [apply incl_tl, incl_appr, incl_refl | apply andb_false_r' | now apply IH2].
  - intros d t IH1 tail IH2 e E. simpl in E.
    apply bind_raise in E as [E|(p1 & _ & E)].
    + apply (accounted_weaken (yield_term t) _ (literals_read_term t));
        [apply incl_tl, incl_appl, incl_refl | apply andb_false_l | now apply IH1].
    + apply bind_raise in E as [E|(p2 & _ & E)]; [|discriminate].
      apply (accounted_weaken (yield_discarded tail) _ (literals_read_discarded tail));
        [apply incl_tl, incl_appr, incl_refl | apply andb_false_r' | now apply IH2].
  - intros e E. discriminate.
Qed.

Lemma main_accounted (m : main_tree) (e : exception) :
  eval_main m = Raise e -> accounted (yield m) (literals_read m) e.
Proof.
  destruct m as [c|]; simpl; [|discriminate]. intros E.
  apply bind_raise in E as [E|(p0 & _ & E)]; [|discriminate].
  now apply (proj1 (proj2 eval_accounted)).
Qed.

(** X4: when the host evaluates every string token of the stream, a
    parse that fails raises one of the two errors of the reader: the
    index and attribute errors that the actions could run into on a
    missing item or a missing span never happen. *)
Theorem only_reader_errors (m : main_tree) (e : exception) :
  literals_read m = true ->
  eval_main m = Raise e ->
  reader_error e.
Proof.
  intros R E. apply main_accounted in E. destruct e; simpl in *; auto.
  congruence.
Qed.


Lemma dotless_with_span (o : HyObject) (sp : boundaries) :
  dotless_cons (with_span o sp) = dotless_cons o.
Proof. now destruct o. Qed.

Lemma dotted_list_dotless (sp : boundaries) (init : list HyObject) (z : HyObject) :
  existsb is_dot (init ++ [z]) = false ->
  forallb dotless_cons (init ++ [z]) = true ->
  dotless_cons (dotted_list sp init z) = true
  /\ is_dot (dotted_list sp init z) = false.
Proof.
  induction init as [|a rest IH]; simpl.
  - rewrite orb_false_r, andb_true_r. auto.
  - rewrite orb_false_iff, andb_true_iff. intros [Da Dr] [Ca Cr].
    destruct (IH Dr Cr) as [C D]. now rewrite Da, D, Ca, C.
Qed.

Lemma paren_dotless (l r : Token) (cont : list HyObject) (v : HyObject) :
  forallb dotless_cons cont = true ->
  paren l cont r = Ok v ->
  dotless_cons v = true.
Proof.
  intros C.
  destruct (paren_cases l r cont) as [[_ ->]|(init & sep & z & -> & _ & _ & ->)];
    intros E; apply bind_ok in E as (u & R & E); injection E as <-.
  - rewrite ?dotless_with_span. exact C.
  - apply reject_dots_ok_inv in R. apply dotted_list_dotless; [assumption|].
    rewrite forallb_app in *. simpl in *.
    apply andb_true_iff in C as [Ci Cz]. rewrite Ci. simpl.
    apply andb_true_iff in Cz as [_ Cz]. exact Cz.
Qed.

Lemma identifier_dotless (p0 : Token) (v : HyObject) :
  t_identifier p0 = Ok v -> dotless_cons v = true.
Proof.
  destruct (t_identifier_spec p0) as (outcome & C & ->). intros E.
  unfold set_boundaries in E. apply bind_ok in E as (o & -> & E).
  cbv beta in E. injection E as <-.
  rewrite dotless_with_span. inversion C; reflexivity.
Qed.

Lemma quoted_dotless (q : Token) (p1 v : HyObject) (items : list HyObject) :
  set_quote_boundaries q p1 (Ok (HyExpression items)) = Ok v ->
  forallb dotless_cons items = true ->
  dotless_cons v = true.
Proof.
  unfold set_quote_boundaries. cbn [bind]. destruct (span_of p1); [|discriminate].
  intros E. now injection E as <-.
Qed.

Lemma eval_dotless :
  (forall t v, eval_term t = Ok v -> dotless_cons v = true)
  /\ (forall c items, eval_contents c = Ok items ->
                      forallb dotless_cons items = true)
  /\ (forall d : discarded_tree, True).
Proof.
  apply tree_mutind; try (intros; exact I); simpl; unfold term; intros;
    repeat match goal with
           | H : bind _ _ = Ok _ |- _ =>
               let a := fresh "a" in
               let E := fresh "E" in
               apply bind_ok in H as (a & E & H)
           | H : Ok _ = Ok _ |- _ => injection H as H
           end;
    subst;
    try (simpl; solve [eauto using identifier_dotless, paren_dotless]);
    try discriminate.
  - unfold t_string, set_boundaries in *.
    destruct (eval_literal _) as [[s|s]|]; try discriminate;
      match goal with E : bind _ _ = Ok _ |- _ => now injection E as <- end.
  - unfold t_bracket_string, set_boundaries in *.
    destruct (bracket_string_groups _) as [[delim content]|]; try discriminate;
      match goal with E : bind _ _ = Ok _ |- _ => now injection E as <- end.
  - eapply quoted_dotless; [eassumption|]. simpl. rewrite andb_true_r. eauto.
  - eapply quoted_dotless; [eassumption|]. simpl. rewrite andb_true_r. eauto.
  - eapply quoted_dotless; [eassumption|]. simpl. rewrite andb_true_r. eauto.
  - eapply quoted_dotless; [eassumption|]. simpl. rewrite andb_true_r. eauto.
  - unfold term_hashstars in *.
    match goal with E : set_quote_boundaries _ _ ?r = Ok _ |- _ =>
      destruct r as [o|] eqn:R; [|unfold set_quote_boundaries in E; discriminate] end.
    apply bind_ok in R as (sym & _ & R). injection R as <-.
    eapply quoted_dotless; [eassumption|]. simpl. rewrite andb_true_r. eauto.
  - eapply quoted_dotless; [eassumption|]. simpl. rewrite andb_true_r. eauto.
  - unfold list_contents. simpl. apply andb_true_iff. split; eauto.
  - unfold list_contents_single. simpl. rewrite andb_true_r. eauto.
Qed.

(** X6: no cons cell of a parse, at any depth, has the bare dot for its
    head or for its tail: the dots of a dotted list are separators, used
    up by [paren], never data. *)
Theorem cons_without_dots (m : main_tree) (forms : list HyObject) :
  eval_main m = Ok forms -> forallb dotless_cons forms = true.
Proof.
  destruct m as [c|]; simpl.
  - intros E. apply bind_ok in E as (items & E & R). injection R as <-.
    exact (proj1 (proj2 eval_dotless) c items E).
  - intros E. now injection E as <-.
Qed.

(** X11: a form made by a marker never fails on its own: when the
    wrapped term is read, the quote, quasiquote, unquote and
    unquote-splice markers give the two-item expression of their symbol
    and the term, and a tag marker gives [dispatch_tag_macro], the text
    of the marker after its first character as a string, as it is, and
    the term; the span runs from the marker to the end of the term. *)
Theorem markers_wrap (q : Token) (t : term_tree) (v : HyObject) :
  eval_term t = Ok v ->
  let sp := Some (quote_span q (token_span t)) in
  eval_term (Quote q t) = Ok (HySeq KExpression [HySymbol "quote"; v] sp)
  /\ eval_term (Quasiquote q t)
     = Ok (HySeq KExpression [HySymbol "quasiquote"; v] sp)
  /\ eval_term (Unquote q t) = Ok (HySeq KExpression [HySymbol "unquote"; v] sp)
  /\ eval_term (UnquoteSplice q t)
     = Ok (HySeq KExpression [HySymbol "unquote_splice"; v] sp)
  /\ eval_term (HashOther q t)
     = Ok (HySeq KExpression
             [HySymbol "dispatch_tag_macro";
              HyString (Py.slice (value q) (Some 1) None) None; v] sp).
Proof.
  intros E. pose proof (term_span t v E) as S. simpl.
  unfold term_quote, term_quasiquote, term_unquote, term_unquote_splice,
    hash_other, set_quote_boundaries.
  rewrite E. cbn [bind]. rewrite S. repeat split; reflexivity.
Qed.

(** X1: the grammar is unambiguous: two derivations of one token stream
    are the same derivation, so a stream has one outcome at most. *)
Theorem one_outcome (tokens : list Token) (a b : result (list HyObject)) :
  parses tokens a -> parses tokens b -> a = b.
Proof.
  intros (m1 & T1 & Y1 & <-) (m2 & T2 & Y2 & <-).
  f_equal. apply yield_injective; congruence.
Qed.

(** X2: the empty stream has one outcome, the empty list of forms. *)
Theorem empty_stream (outcome : result (list HyObject)) :
  parses [] outcome <-> outcome = Ok [].
Proof.
  split.
  - intros ([c|] & T & Y & <-); [|reflexivity]. simpl in T, Y.
    destruct (contents_head c T) as (tok & rest & Yc & _). congruence.
  - intros ->. exists MainEmpty. now repeat split.
Qed.

Lemma replace_first_at (q : ascii) (new prefix rest : string) :
  ~ occurs q prefix ->
  Py.replace_first q new (prefix ++ String q rest) = (prefix ++ new ++ rest)%string.
Proof.
  induction prefix as [|c prefix IH]; intros N; simpl.
  - now rewrite Ascii.eqb_refl.
  - destruct (Ascii.eqb_spec c q) as [->|D].
    + exfalso. apply N, occurs_head.
    + rewrite IH; [reflexivity|]. intros O. apply N. now apply occurs_tail.
Qed.

Lemma append_assoc (a b c : string) : ((a ++ b) ++ c = a ++ b ++ c)%string.
Proof. induction a as [|x a IH]; simpl; [reflexivity | now rewrite IH]. Qed.

(** X8: on the text of a string token, a prefix without quote, an
    opening quote, a body and a closing quote, [t_string] hands to the
    host the prefix and the body between triple quotes, and nothing
    else of the text is touched; the text value comes back as a string,
    the bytes value as bytes, at the span of the token. *)
Theorem string_redelimited (p0 : Token) (prefix body : string) :
  value p0 = (prefix ++ String dquote (body ++ String dquote ""))%string ->
  ~ occurs dquote prefix ->
  t_string p0
  = set_boundaries p0 None
      match eval_literal (prefix ++ triple_quote ++ body ++ triple_quote)%string with
      | Some (inl s) => Ok (HyString s None)
      | Some (inr s) => Ok (HyBytes s)
      | None => Raise (PythonError "SyntaxError")
      end.
Proof.
  intros V N. unfold t_string. rewrite V, replace_first_at by assumption.
  replace (prefix ++ triple_quote ++ body ++ String dquote "")%string
    with ((prefix ++ triple_quote ++ body) ++ String dquote "")%string
    by (now rewrite !append_assoc).
  rewrite slice_init. now rewrite !append_assoc.
Qed.

End SpanFacts.


(** ** The mangler and the unmangler together *)

Section UnmangleFacts.

Context {host : Host}.

Variable isalpha : ascii -> bool.
Variable isupper : ascii -> bool.
Variable lower : string -> string.

Import Spec PyFacts.

(** X9: the mangler is one-way: no function of the mangled name gives
    back every name, for two names are mangled alike. *)
Theorem mangle_one_way (unmangle : string -> string) :
  exists p, unmangle (hy_symbol_mangle p) <> p.
Proof.
  assert (A : hy_symbol_mangle "a-b" = "a_b") by reflexivity.
  assert (B : hy_symbol_mangle "a_b" = "a_b") by reflexivity.
  destruct (string_dec (unmangle "a_b") "a_b") as [E|N].
  - exists "a-b". rewrite A, E. discriminate.
  - exists "a_b". now rewrite B.
Qed.

Lemma last_character (a b : string) (c d : ascii) :
  a ++ String c "" = b ++ String d "" -> c = d.
Proof.
  revert b; induction a as [|x a IH]; intros [|y b] E; simpl in E.
  - now injection E.
  - injection E as _ E. destruct b; discriminate.
  - injection E as _ E. destruct a; discriminate.
  - injection E as _ E. eauto.
Qed.

(** X10: a mangled name ends with "!" only when it is "!" itself. *)
Theorem mangled_bang (p : string) :
  ends_with (hy_symbol_mangle p) "!" -> hy_symbol_mangle p = "!".
Proof.
  destruct (mangle_mangled p) as (s1 & s2 & s3 & _ & _ & _ & B).
  intros [x E]. destruct B as [[_ (r & _ & R)]|[N R]].
  - exfalso. rewrite R in E.
    change (r ++ "_bang") with (r ++ "_ban" ++ String "g" "") in E.
    rewrite <- append_assoc in E.
    apply last_character in E. discriminate.
  - rewrite R in *. destruct (string_dec s3 "!") as [S|S]; [assumption|].
    exfalso. apply N. split; [now exists x | assumption].
Qed.

Lemma replace_app (a b : ascii) (x y : string) :
  Py.replace a (String b "") (x ++ y)
  = Py.replace a (String b "") x ++ Py.replace a (String b "") y.
Proof.
  induction x as [|c x IH]; simpl; [reflexivity|].
  destruct (Ascii.eqb c a); simpl; now rewrite IH.
Qed.

Lemma replace_absent (a : ascii) (new s : string) :
  ~ occurs a s -> Py.replace a new s = s.
Proof.
  induction s as [|c s IH]; intros N; simpl; [reflexivity|].
  destruct (Ascii.eqb_spec c a) as [->|D].
  - exfalso. apply N, occurs_head.
  - rewrite IH; [reflexivity|]. intros O. apply N. now apply occurs_tail.
Qed.

(** Replacing [a] by [b], then [b] by [a], restores a text without [b]. *)
Lemma replace_back (a b : ascii) (s : string) :
  ~ occurs b s ->
  Py.replace b (String a "") (Py.replace a (String b "") s) = s.
Proof.
  induction s as [|c s IH]; intros N; simpl; [reflexivity|].
  assert (Ns : ~ occurs b s) by (intros O; apply N; now apply occurs_tail).
  destruct (Ascii.eqb_spec c a) as [->|D]; simpl.
  - rewrite Ascii.eqb_refl. simpl. now rewrite IH.
  - destruct (Ascii.eqb_spec c b) as [->|D'].
    + exfalso. apply N, occurs_head.
    + now rewrite IH.
Qed.

Lemma occurs_replaced (a b : ascii) (s : string) :
  occurs a s -> occurs b (Py.replace a (String b "") s).
Proof.
  intros (x & y & ->). rewrite replace_app. apply occurs_app. right.
  simpl. rewrite Ascii.eqb_refl. apply occurs_head.
Qed.

(** What the hyphen rule of the mangler makes of a suffix and of a
    prefix of a text without underscore. *)
Lemma mangled_suffix (p suf : string) :
  ~ occurs "_" p ->
  ends_with (Py.replace "-" "_" p) suf ->
  ends_with p (Py.replace "_" "-" suf).
Proof.
  intros N [r E]. exists (Py.replace "_" "-" r).
  rewrite <- replace_app, <- E. symmetry. now apply replace_back.
Qed.

Lemma mangled_prefix (p pre : string) :
  ~ occurs "_" p ->
  starts_with (Py.replace "-" "_" p) pre ->
  starts_with p (Py.replace "_" "-" pre).
Proof.
  intros N [r E]. exists (Py.replace "_" "-" r).
  rewrite <- replace_app, <- E. symmetry. now apply replace_back.
Qed.

Lemma endswith_false (s suf : string) :
  ~ ends_with s suf -> Py.endswith s suf = false.
Proof.
  intros N. destruct (Py.endswith s suf) eqn:E; [|reflexivity].
  apply endswith_iff in E. contradiction.
Qed.

Lemma startswith_false (s pre : string) :
  ~ starts_with s pre -> Py.startswith s pre = false.
Proof.
  intros N. destruct (Py.startswith s pre) eqn:E; [|reflexivity].
  apply startswith_iff in E. contradiction.
Qed.

(** The mangler on a name without earmuffs, question mark or
    exclamation mark at its end: the hyphen rule alone. *)
Lemma mangle_hyphens_only (p : string) :
  ~ starts_with p "*" -> ~ ends_with p "?" -> ~ ends_with p "!" ->
  ~ occurs "_" p -> p <> "-" ->
  hy_symbol_mangle p = Py.replace "-" "_" p.
Proof.
  intros S Q B U D. unfold hy_symbol_mangle.
  rewrite (startswith_false p "*" S). cbn [andb].
  assert (E : (if Py.contains "-" p && negb (p =? "-")%string
               then Py.replace "-" "_" p else p) = Py.replace "-" "_" p).
  { destruct (Py.contains "-" p) eqn:C; simpl.
    - apply eqb_false_iff in D. now rewrite D.
    - symmetry. apply replace_absent. now apply contains_false_iff. }
  rewrite E.
  rewrite (endswith_false _ "?"), (endswith_false _ "!"); [reflexivity | |].
  - cbn [andb]. intros H. now apply (mangled_suffix p "!") in H.
  - intros H. now apply (mangled_suffix p "?") in H.
Qed.

(** X12: for the hyphen rule alone, unmangling restores the name: a
    name without underscore that has no asterisk in front, no "?" or "!"
    at its end, that does not start with "is-" or end with "-bang", and
    that is not like a constant, is what [hy_symbol_unmangle] makes of
    its mangled name. *)
Theorem unmangle_mangle_hyphens (p : string) :
  ~ occurs "_" p ->
  ~ starts_with p "*" -> ~ ends_with p "?" -> ~ ends_with p "!" ->
  ~ starts_with p "is-" -> ~ ends_with p "-bang" ->
  constant_like isalpha isupper p = false ->
  hy_symbol_unmangle isalpha isupper lower (hy_symbol_mangle p) = p.
Proof.
  intros U S Q B I G K.
  destruct (string_dec p "-") as [->|D].
  - unfold constant_like in K. simpl in K.
    unfold hy_symbol_unmangle. change (hy_symbol_mangle "-") with "-". simpl.
    now rewrite K.
  - rewrite (mangle_hyphens_only p S Q B U D). unfold hy_symbol_unmangle.
    rewrite (endswith_false _ "_bang"), (startswith_false _ "is_").
    + cbn [andb].
      assert (E : (if Py.contains "_" (Py.replace "-" "_" p)
                      && negb (Py.replace "-" "_" p =? "_")%string
                   then Py.replace "_" "-" (Py.replace "-" "_" p)
                   else Py.replace "-" "_" p) = p).
      { destruct (Py.contains "_" (Py.replace "-" "_" p)) eqn:C.
        - destruct (String.eqb_spec (Py.replace "-" "_" p) "_") as [E|E]; simpl.
          + exfalso. apply D. rewrite <- (replace_back "-" "_" p U), E. reflexivity.
          + now apply replace_back.
        - simpl. apply contains_false_iff in C.
          rewrite <- (replace_back "-" "_" p U) at 2.
          symmetry. now apply replace_absent. }
      rewrite E. unfold constant_like in K. now rewrite K.
    + intros H. now apply (mangled_prefix p "is_") in H.
    + intros H. now apply (mangled_suffix p "_bang") in H.
Qed.

Lemma occurs_in (c : ascii) (s : string) :
  occurs c s -> In c (list_ascii_of_string s).
Proof.
  intros (a & b & ->). induction a as [|x a IH]; simpl; [now left | now right].
Qed.

(** X13: a name with an underscore never gets its earmuffs back: when
    the first two steps of the unmangler do not apply, a name with an
    underscore comes out with its underscores as hyphens and nothing
    more, be it all upper-case letters and underscores; the underscores
    that the last step allows are gone by then. *)
Theorem unmangle_underscored (p : string) :
  isalpha "-" && isupper "-" = false ->
  occurs "_" p -> p <> "_" ->
  ~ ends_with p "_bang" -> ~ starts_with p "is_" ->
  hy_symbol_unmangle isalpha isupper lower p = Py.replace "_" "-" p.
Proof.
  intros L O N B I. unfold hy_symbol_unmangle.
  rewrite (endswith_false p "_bang" B). cbn [andb].
  rewrite (startswith_false p "is_" I). cbn [andb].
  rewrite (proj2 (contains_iff "_" p) O).
  apply eqb_false_iff in N. rewrite N. cbn [andb negb].
  replace (forallb _ (list_ascii_of_string (Py.replace "_" "-" p))) with false;
    [reflexivity|].
  symmetry. apply not_true_is_false. intros F.
  pose proof (occurs_in "-" _ (occurs_replaced "_" "-" p O)) as M.
  pose proof (proj1 (forallb_forall _ _) F "-"%char M) as T.
  cbv beta in T. rewrite L in T. discriminate.
Qed.

Lemma upper_letters_without (u : string) (c : ascii) :
  upper_letters isalpha isupper u = true -> isalpha c = false -> ~ occurs c u.
Proof.
  intros F A O. apply occurs_in in O.
  pose proof (proj1 (forallb_forall _ _) F c O) as T.
  cbv beta in T. rewrite A in T. discriminate.
Qed.

(** X14: the earmuffs come back on a name without punctuation: when the
    upper-case form of [body] is made of upper-case letters, one at
    least, and lower-cases to [body], and the punctuation of the
    mangler counts for no letter, [hy_symbol_unmangle] makes the
    earmuffed [body] of its mangled name. *)
Theorem unmangle_mangle_earmuffs (body : string) :
  body <> "" ->
  upper body <> "" ->
  upper_letters isalpha isupper (upper body) = true ->
  lower (upper body) = body ->
  isalpha "-" = false -> isalpha "_" = false ->
  isalpha "?" = false -> isalpha "!" = false ->
  hy_symbol_unmangle isalpha isupper lower
    (hy_symbol_mangle ("*" ++ body ++ "*"))
  = "*" ++ body ++ "*".
Proof.
  intros Nb Nu F Lw Ah Au Aq Ab.
  assert (Oh := upper_letters_without _ _ F Ah).
  assert (Ou := upper_letters_without _ _ F Au).
  assert (Oq := upper_letters_without _ _ F Aq).
  assert (Ob := upper_letters_without _ _ F Ab).
  assert (M : hy_symbol_mangle ("*" ++ body ++ "*") = upper body).
  { unfold hy_symbol_mangle.
    replace (Py.startswith ("*" ++ body ++ "*") "*") with true
      by (symmetry; apply startswith_iff; now exists (body ++ "*")).
    replace (Py.endswith ("*" ++ body ++ "*") "*") with true
      by (symmetry; apply endswith_iff; now exists ("*" ++ body)).
    replace (("*" ++ body ++ "*" =? "*")%string) with false
      by (symmetry; apply eqb_false_iff; destruct body; discriminate).
    replace (("*" ++ body ++ "*" =? "**")%string) with false
      by (symmetry; apply eqb_false_iff; destruct body as [|c [|d b]];
          [contradiction | discriminate | discriminate]).
    cbn [andb orb negb].
    change ("*" ++ body ++ "*") with (String "*" (body ++ String "*" "")).
    rewrite slice_inner.
    rewrite (proj2 (contains_false_iff "-" _) Oh). cbn [andb].
    rewrite (endswith_false (upper body) "?").
    2:{ intros [r E]. apply Oq. rewrite E. apply occurs_app. right.
        apply occurs_head. }
    cbn [andb]. rewrite (endswith_false (upper body) "!"); [reflexivity|].
    intros [r E]. apply Ob. rewrite E. apply occurs_app. right. apply occurs_head. }
  rewrite M. unfold hy_symbol_unmangle.
  rewrite (endswith_false (upper body) "_bang").
  2:{ intros [r E]. apply Ou. rewrite E. apply occurs_app. right.
      apply occurs_head. }
  cbn [andb]. rewrite (startswith_false (upper body) "is_").
  - cbn [andb]. rewrite (proj2 (contains_false_iff "_" _) Ou). cbn [andb].
    replace (forallb _ (list_ascii_of_string (upper body))) with true.
    + replace (existsb isalpha (list_ascii_of_string (upper body))) with true;
        [cbn [andb]; now rewrite Lw|].
      symmetry. unfold upper_letters in F.
      destruct (upper body) as [|c u]; [contradiction|]. simpl in *.
      apply andb_true_iff in F as [Fc _]. apply andb_true_iff in Fc as [Fc _].
      now rewrite Fc.
    + symmetry. unfold upper_letters in F. apply forallb_forall. intros c Ic.
      now rewrite (proj1 (forallb_forall _ _) F c Ic).
  - intros [r E]. apply Ou. rewrite E.
    change ("is_" ++ r) with (("is" ++ String "_" r)). apply occurs_app. right.
    apply occurs_head.
Qed.

End UnmangleFacts.

(** * The properties at concrete inputs *)

Module Cases.

Import Spec PyFacts Example Tokens.

#[local] Existing Instance Literal.host.

Local Open Scope list_scope.

Lemma absent (c : ascii) (s : string) :
  Py.contains (String c "") s = false -> ~ occurs c s.
Proof. apply contains_false_iff. Qed.

Lemma no_prefix (s pre : string) :
  Py.startswith s pre = false -> ~ starts_with s pre.
Proof. intros E H. apply startswith_iff in H. congruence. Qed.

Lemma no_suffix (s suf : string) :
  Py.endswith s suf = false -> ~ ends_with s suf.
Proof. intros E H. apply endswith_iff in H. congruence. Qed.

(** [(a . b)] has the outcome of its derivation and no other. *)
Lemma one_outcome_witness :
  parses [lparen 1; tok IDENTIFIER "a" 2; tok IDENTIFIER "." 4;
          tok IDENTIFIER "b" 6; rparen 7]
    (Ok [with_span (HyCons (symbol "a" 2 1) (symbol "b" 6 1))
           (form_span (lparen 1) (rparen 7))])
  /\ forall outcome,
       parses [lparen 1; tok IDENTIFIER "a" 2; tok IDENTIFIER "." 4;
               tok IDENTIFIER "b" 6; rparen 7] outcome ->
       outcome
       = Ok [with_span (HyCons (symbol "a" 2 1) (symbol "b" 6 1))
               (form_span (lparen 1) (rparen 7))].
Proof.
  assert (P : parses [lparen 1; tok IDENTIFIER "a" 2; tok IDENTIFIER "." 4;
                      tok IDENTIFIER "b" 6; rparen 7]
                (Ok [with_span (HyCons (symbol "a" 2 1) (symbol "b" 6 1))
                       (form_span (lparen 1) (rparen 7))])).
  { exists (Main (Single (Paren (lparen 1)
                            (Contents (ident "a" 2)
                               (Contents (ident "." 4) (Single (ident "b" 6))))
                            (rparen 7)))).
    now repeat split. }
  split; [exact P|].
  intros outcome Q. exact (one_outcome _ outcome _ Q P).
Defined.

(** ['#_ a bc]: the span runs from the quote to the end of [bc]. *)
Lemma span_from_tokens_witness :
  eval_term (Quote (tok QUOTE "'" 1)
               (Discard (discard 2) (ident "a" 5) (ident "bc" 7)))
  = Ok (expression [HySymbol "quote"; symbol "bc" 7 2] 1 9)
  /\ span_of (expression [HySymbol "quote"; symbol "bc" 7 2] 1 9)
     = Some (token_span (Quote (tok QUOTE "'" 1)
                           (Discard (discard 2) (ident "a" 5) (ident "bc" 7)))).
Proof.
  split; [reflexivity|].
  apply (span_from_tokens
           (Quote (tok QUOTE "'" 1)
              (Discard (discard 2) (ident "a" 5) (ident "bc" 7)))).
  reflexivity.
Defined.

(** [(a . b . c)]: the error is at the second dot, the first of the
    items other than the separator. *)
Lemma first_misplaced_dot_witness :
  exists before x after b,
    existsb is_dot before = false
    /\ is_dot x = true
    /\ span_of x = Some b
    /\ LexException "Malformed dotted list" 1 4
       = LexException "Malformed dotted list" (start_line b) (start_column b)
    /\ ((~ dotted_tail [symbol "a" 2 1; symbol "." 4 1; symbol "b" 6 1;
                        symbol "." 8 1; symbol "c" 10 1]
         /\ tl [symbol "a" 2 1; symbol "." 4 1; symbol "b" 6 1;
                symbol "." 8 1; symbol "c" 10 1] = before ++ x :: after)
        \/ (exists init sep z,
              [symbol "a" 2 1; symbol "." 4 1; symbol "b" 6 1;
               symbol "." 8 1; symbol "c" 10 1] = init ++ [sep; z]
              /\ init <> [] /\ is_dot sep = true
              /\ init ++ [z] = before ++ x :: after)).
Proof.
  apply (first_misplaced_dot (lparen 1)
           (rparen 11)
           (Contents (ident "a" 2)
              (Contents (ident "." 4)
                 (Contents (ident "b" 6)
                    (Contents (ident "." 8) (Single (ident "c" 10))))))).
  - reflexivity.
  - reflexivity.
Defined.

(** A string and [5.attr]: the string is read, the parse fails on the
    identifier with an error of the reader. *)
Lemma only_reader_errors_witness :
  reader_error (LexException not_a_name 1 7).
Proof.
  apply (only_reader_errors
           (Main (Contents
                    (String_ (tok STRING
                                (String dquote ("abc" ++ String dquote "")) 1))
                    (Single (ident "5.attr" 7))))).
  - reflexivity.
  - reflexivity.
Defined.


(** [(a b . c)]: neither cell has a dot for its head or its tail. *)
Lemma cons_without_dots_witness :
  forallb dotless_cons
    [with_span
       (HyCons (symbol "a" 2 1)
          (with_span (HyCons (symbol "b" 4 1) (symbol "c" 8 1))
             (form_span (lparen 1) (rparen 9))))
       (form_span (lparen 1) (rparen 9))] = true.
Proof.
  apply (cons_without_dots
           (Main (Single (Paren (lparen 1)
                            (Contents (ident "a" 2)
                               (Contents (ident "b" 4)
                                  (Contents (ident "." 6)
                                     (Single (ident "c" 8)))))
                            (rparen 9))))).
  reflexivity.
Defined.

(** [#foo-bar x]: the tag keeps its hyphen. *)
Lemma markers_wrap_witness :
  eval_term (HashOther (tok HASHOTHER "#foo-bar" 1) (ident "x" 10))
  = Ok (expression
          [HySymbol "dispatch_tag_macro"; HyString "foo-bar" None;
           symbol "x" 10 1] 1 11).
Proof.
  apply (markers_wrap (tok HASHOTHER "#foo-bar" 1) (ident "x" 10)
           (symbol "x" 10 1) eq_refl).
Defined.

(** The token of the text [abc] between quotes. *)
Lemma string_redelimited_witness :
  t_string (tok STRING (String dquote ("abc" ++ String dquote "")) 1)
  = Ok (HyAtom (AString "abc" None)
          (Some {| start_line := 1; start_column := 1;
                   end_line := 1; end_column := 6 |})).
Proof.
  rewrite (string_redelimited
             (tok STRING (String dquote ("abc" ++ String dquote "")) 1)
             "" "abc" eq_refl (absent dquote "" eq_refl)).
  reflexivity.
Defined.

Lemma mangled_bang_witness : hy_symbol_mangle "!" = "!".
Proof. apply mangled_bang. exists "". reflexivity. Defined.

Lemma unmangle_mangle_hyphens_witness :
  hy_symbol_unmangle Letters.isalpha Letters.isupper Letters.lower
    (hy_symbol_mangle "foo-bar") = "foo-bar".
Proof.
  apply unmangle_mangle_hyphens.
  - now apply absent.
  - now apply no_prefix.
  - now apply no_suffix.
  - now apply no_suffix.
  - now apply no_prefix.
  - now apply no_suffix.
  - reflexivity.
Defined.

(** [FOO_BAR] comes out as [FOO-BAR], without earmuffs. *)
Lemma unmangle_underscored_witness :
  hy_symbol_unmangle Letters.isalpha Letters.isupper Letters.lower "FOO_BAR"
  = "FOO-BAR".
Proof.
  rewrite (unmangle_underscored Letters.isalpha Letters.isupper Letters.lower
             "FOO_BAR").
  - reflexivity.
  - reflexivity.
  - exists "FOO", "BAR". reflexivity.
  - discriminate.
  - now apply no_suffix.
  - now apply no_prefix.
Defined.

Lemma unmangle_mangle_earmuffs_witness :
  hy_symbol_unmangle Letters.isalpha Letters.isupper Letters.lower
    (hy_symbol_mangle "*foo*") = "*foo*".
Proof.
  apply (unmangle_mangle_earmuffs Letters.isalpha Letters.isupper Letters.lower
           "foo").
  - discriminate.
  - discriminate.
  - reflexivity.
  - reflexivity.
  - reflexivity.
  - reflexivity.
  - reflexivity.
  - reflexivity.
Defined.

End Cases.
